(** * ProxyMonitor: the state logic of [src/components/proxy/ProxyMonitor.tsx]

    A shallow embedding of the stateful part of the React component
    [ProxyMonitor]: the four pieces of component state ([logs], [stats],
    [filter], [isLoggingEnabled]), the handler of the ['proxy://request']
    event, the [filteredLogs] predicate and the three asynchronous
    commands [loadData], [toggleLogging] and [clearLogs].

    Modelling choices.
    - A JavaScript [number] holding an integer is a [Z].  The counters and
      the status code are exact in the source as long as they stay below
      2^53 in absolute value; the 64-bit float rounding beyond that is
      outside the model.
    - A JavaScript string is a [string]; [toLowerCase] is modelled on
      ASCII strings, where it moves the 26 capitals and nothing else.
    - An optional field ([model?: string]) is an [option].
    - [await invoke(...)] either resolves with a value or rejects; the
      commands run in a small state-and-exception monad whose state holds
      the component state, the list of backend commands issued so far and
      the lines written with [console.error]. *)

From Stdlib Require Import ZArith List String Ascii Bool Lia DecimalString.
Import ListNotations.

Local Open Scope string_scope.
Local Open Scope list_scope.
Local Open Scope Z_scope.

(** ** Data model *)

(** [interface ProxyRequestLog] (lines 9-22). *)
Record ProxyRequestLog : Type := mkLog {
  id : string;
  timestamp : Z;
  method : string;
  url : string;
  status : Z;
  duration : Z;
  model : option string;
  error : option string;
  request_body : option string;
  response_body : option string;
  input_tokens : option Z;
  output_tokens : option Z
}.

(** [interface ProxyStats] (lines 24-28). *)
Record ProxyStats : Type := mkStats {
  total_requests : Z;
  success_count : Z;
  error_count : Z
}.

(** The initial value given to [useState<ProxyStats>] (line 37) and the
    value written by [clearLogs] (line 132). *)
Definition zeroStats : ProxyStats :=
  {| total_requests := 0; success_count := 0; error_count := 0 |}.

(** The component state: the [useState] cells of lines 36-40
    ([selectedLog] only drives the detail modal and is left out). *)
Record Monitor : Type := mkMonitor {
  logs : list ProxyRequestLog;
  stats : ProxyStats;
  filter : string;
  isLoggingEnabled : bool
}.

(** The state right after the first render. *)
Definition initialMonitor : Monitor :=
  {| logs := []; stats := zeroStats; filter := EmptyString; isLoggingEnabled := false |}.

(** ** The live-event handler (lines 84-96) *)

(** The capacity used by [slice(0, 1000)]. *)
Definition capacity : nat := 1000.

(** [prev => [newLog, ...prev].slice(0, 1000)] (line 87). *)
Definition logsUpdater (newLog : ProxyRequestLog) (prev : list ProxyRequestLog)
  : list ProxyRequestLog :=
  firstn capacity (newLog :: prev).

(** [newLog.status >= 200 && newLog.status < 400] (line 89). *)
Definition isSuccess (newLog : ProxyRequestLog) : bool :=
  (200 <=? status newLog) && (status newLog <? 400).

(** The updater passed to [setStats] (lines 88-95). *)
Definition statsUpdater (newLog : ProxyRequestLog) (prev : ProxyStats) : ProxyStats :=
  {| total_requests := total_requests prev + 1;
     success_count := success_count prev + (if isSuccess newLog then 1 else 0);
     error_count := error_count prev + (if isSuccess newLog then 0 else 1) |}.

(** The whole callback: [setLogs] first, [setStats] second. *)
Definition listener (newLog : ProxyRequestLog) (m : Monitor) : Monitor :=
  {| logs := logsUpdater newLog (logs m);
     stats := statsUpdater newLog (stats m);
     filter := filter m;
     isLoggingEnabled := isLoggingEnabled m |}.

(** A run of live events, delivered in list order. *)
Definition deliver (events : list ProxyRequestLog) (m : Monitor) : Monitor :=
  fold_left (fun acc ev => listener ev acc) events m.

(** The quantity whose vanishing is the stats invariant. *)
Definition imbalance (s : ProxyStats) : Z :=
  total_requests s - (success_count s + error_count s).

(** A record with the given status and nothing else of interest. *)
Definition logWithStatus (n : Z) : ProxyRequestLog :=
  {| id := "probe"; timestamp := 0; method := "GET"; url := "/"; status := n;
     duration := 0; model := None; error := None; request_body := None;
     response_body := None; input_tokens := None; output_tokens := None |}.

(** ** The filter predicate (lines 106-111) *)

(** [String.prototype.toLowerCase] on one code unit of an ASCII string: the
    26 capitals move down by 32, everything else stays.  On strings with
    code units outside ASCII the source follows the Unicode rules (other
    alphabets, the final sigma), which this function does not render; the
    statements that depend on letter folding are made for ASCII strings
    ([asciiOnly] below). *)
Definition lowerAscii (c : ascii) : ascii :=
  let n := nat_of_ascii c in
  if ((65 <=? n) && (n <=? 90))%nat then ascii_of_nat (n + 32) else c.

Fixpoint toLowerCase (s : string) : string :=
  match s with
  | EmptyString => EmptyString
  | String c rest => String (lowerAscii c) (toLowerCase rest)
  end.

(** Does [s] begin with [search]?  The test made at each position by
    [includes]. *)
Fixpoint startsWith (s search : string) {struct search} : bool :=
  match search, s with
  | EmptyString, _ => true
  | String _ _, EmptyString => false
  | String c search', String d s' => Ascii.eqb c d && startsWith s' search'
  end.

(** [String.prototype.includes]: [search] occurs in [s] at some position. *)
Fixpoint includes (s search : string) : bool :=
  startsWith s search
  || match s with
     | EmptyString => false
     | String _ rest => includes rest search
     end.

(** [Number.prototype.toString] on an integer: the decimal digits, with a
    leading minus sign below zero. *)
Definition toString (n : Z) : string :=
  NilEmpty.string_of_int (Z.to_int n).

(** JavaScript truthiness of a string: only the empty string is falsy. *)
Definition truthy (s : string) : bool :=
  negb (String.eqb s EmptyString).

(** The callback given to [logs.filter] (lines 106-111), with the current
    value of the [filter] cell as second argument. *)
Definition matches (log : ProxyRequestLog) (query : string) : bool :=
  includes (toLowerCase (url log)) (toLowerCase query)
  || includes (toLowerCase (method log)) (toLowerCase query)
  || match model log with
     | Some m => truthy m && includes (toLowerCase m) (toLowerCase query)
     | None => false
     end
  || includes (toString (status log)) query.

Definition filteredLogs (m : Monitor) : list ProxyRequestLog :=
  List.filter (fun log => matches log (filter m)) (logs m).

(** What the specification calls containment: [q] sits somewhere inside
    [s]. *)
Definition substringOf (q s : string) : Prop :=
  exists a b, s = (a ++ q ++ b)%string.

(** Containment up to letter case: some stretch of [s] reads as [q] once
    both are put in lower case. *)
Definition ciSubstringOf (q s : string) : Prop :=
  exists a mid b, s = (a ++ mid ++ b)%string /\ toLowerCase mid = toLowerCase q.

(** Every character of [s] passes the test [p]. *)
Fixpoint allChars (p : ascii -> bool) (s : string) : bool :=
  match s with
  | EmptyString => true
  | String c rest => p c && allChars p rest
  end.

(** The characters a printed integer is made of. *)
Definition isDigitOrMinus (c : ascii) : bool :=
  let n := nat_of_ascii c in
  (((48 <=? n) && (n <=? 57)) || (n =? 45))%nat.

(** ** The outside world: configuration, backend commands, dialog *)

(** The part of [AppConfig] (imported from [types/config]) that the
    component reads and writes: [config.proxy.enable_logging].  The other
    fields travel unchanged through [save_config] and are not modelled. *)
Record ProxyConfig : Type := mkProxyConfig {
  enable_logging : bool
}.

(** [config.proxy] may be missing, which [loadData] tests for. *)
Record AppConfig : Type := mkAppConfig {
  proxy : option ProxyConfig
}.

(** What [get_proxy_logs] may hand back: an array, or anything else, which
    [Array.isArray] turns down. *)
Inductive HistoryReply : Type :=
| HArray (records : list ProxyRequestLog)
| HNotArray.

(** The backend commands reached through [invoke], with their arguments. *)
Inductive Command : Type :=
| load_config
| save_config (config : AppConfig)
| set_proxy_monitor_enabled (enabled : bool)
| get_proxy_logs (limit : Z)
| get_proxy_stats
| clear_proxy_logs.

(** An awaited promise settles one way or the other. *)
Inductive Outcome (A : Type) : Type :=
| Resolved (value : A)
| Rejected (reason : string).

Arguments Resolved {A} value.
Arguments Rejected {A} reason.

(** How the collaborators answer.  Each command body below calls a given
    endpoint at most once, so a fixed answer per endpoint and argument
    describes every run.  [None] stands for [null]/[undefined]. *)
Record Backend : Type := mkBackend {
  on_load_config : Outcome (option AppConfig);
  on_save_config : AppConfig -> Outcome unit;
  on_set_proxy_monitor_enabled : bool -> Outcome unit;
  on_get_proxy_logs : Z -> Outcome HistoryReply;
  on_get_proxy_stats : Outcome (option ProxyStats);
  on_clear_proxy_logs : Outcome unit;
  on_ask : Outcome bool
}.

(** Everything a command can touch: the component state, the backend
    commands issued so far (oldest first) and the [console.error] lines
    (message and reason, oldest first). *)
Record World : Type := mkWorld {
  view : Monitor;
  issued : list Command;
  console : list (string * string)
}.

(** A world in which nothing has been issued or logged yet. *)
Definition startWorld (m : Monitor) : World :=
  {| view := m; issued := []; console := [] |}.

(** ** A state-and-exception monad for the [async] functions *)

Definition Act (A : Type) : Type := World -> Outcome A * World.

Definition ret {A : Type} (a : A) : Act A :=
  fun w => (Resolved a, w).

Definition bind {A B : Type} (m : Act A) (k : A -> Act B) : Act B :=
  fun w =>
    match m w with
    | (Resolved a, w') => k a w'
    | (Rejected e, w') => (Rejected e, w')
    end.

Definition throw {A : Type} (e : string) : Act A :=
  fun w => (Rejected e, w).

(** [try { body } catch (e) { handler(e) }]. *)
Definition tryCatch (body : Act unit) (handler : string -> Act unit) : Act unit :=
  fun w =>
    match body w with
    | (Resolved a, w') => (Resolved a, w')
    | (Rejected e, w') => handler e w'
    end.

Declare Scope act_scope.
Delimit Scope act_scope with act.
Notation "x <- m ;; k" := (bind m (fun x => k))
  (at level 61, m at next level, right associativity) : act_scope.
Notation "m ;; k" := (bind m (fun _ => k))
  (at level 61, right associativity) : act_scope.
Local Open Scope act_scope.

(** [await invoke(cmd, args)]: the command is recorded, the promise settles
    as the backend decides. *)
Definition invoke {A : Type} (cmd : Command) (answer : Outcome A) : Act A :=
  fun w =>
    (answer, {| view := view w; issued := issued w ++ [cmd]; console := console w |}).

(** [await ask(...)]: the confirmation dialog; nothing reaches the backend. *)
Definition ask (b : Backend) : Act bool :=
  fun w => (on_ask b, w).

Definition modify (f : Monitor -> Monitor) : Act unit :=
  fun w =>
    (Resolved tt, {| view := f (view w); issued := issued w; console := console w |}).

Definition setLogs (l : list ProxyRequestLog) : Act unit :=
  modify (fun m => {| logs := l; stats := stats m; filter := filter m;
                      isLoggingEnabled := isLoggingEnabled m |}).

Definition setStats (s : ProxyStats) : Act unit :=
  modify (fun m => {| logs := logs m; stats := s; filter := filter m;
                      isLoggingEnabled := isLoggingEnabled m |}).

Definition setIsLoggingEnabled (enabled : bool) : Act unit :=
  modify (fun m => {| logs := logs m; stats := stats m; filter := filter m;
                      isLoggingEnabled := enabled |}).

(** Reading a state cell from the closure of the current render. *)
Definition readIsLoggingEnabled : Act bool :=
  fun w => (Resolved (isLoggingEnabled (view w)), w).

(** [console.error(message, e)]. *)
Definition consoleError (message : string) (e : string) : Act unit :=
  fun w =>
    (Resolved tt,
     {| view := view w; issued := issued w; console := console w ++ [(message, e)] |}).

(** ** The three commands *)

(** [loadData] (lines 42-59): one [try] block around the three fetches. *)
Definition loadData (b : Backend) : Act unit :=
  tryCatch
    (config <- invoke load_config (on_load_config b) ;;
     match config with
     | Some {| proxy := Some p |} =>
         setIsLoggingEnabled (enable_logging p) ;;
         invoke (set_proxy_monitor_enabled (enable_logging p))
                (on_set_proxy_monitor_enabled b (enable_logging p))
     | _ => ret tt
     end ;;
     history <- invoke (get_proxy_logs 100) (on_get_proxy_logs b 100) ;;
     match history with
     | HArray records => setLogs records
     | HNotArray => ret tt
     end ;;
     currentStats <- invoke get_proxy_stats (on_get_proxy_stats b) ;;
     match currentStats with
     | Some s => setStats s
     | None => ret tt
     end)
    (consoleError "Failed to load proxy data").

(** [config.proxy.enable_logging = newState] (line 66): the assignment
    needs [config] and [config.proxy] to be there, and raises a
    [TypeError] otherwise. *)
Definition assignEnableLogging (config : option AppConfig) (newState : bool)
  : option AppConfig :=
  match config with
  | Some {| proxy := Some _ |} =>
      Some {| proxy := Some {| enable_logging := newState |} |}
  | _ => None
  end.

(** [toggleLogging] (lines 61-76). *)
Definition toggleLogging (b : Backend) : Act unit :=
  current <- readIsLoggingEnabled ;;
  let newState := negb current in
  tryCatch
    (config <- invoke load_config (on_load_config b) ;;
     config' <- match assignEnableLogging config newState with
                | Some c => ret c
                | None => throw "TypeError"
                end ;;
     invoke (save_config config') (on_save_config b config') ;;
     invoke (set_proxy_monitor_enabled newState)
            (on_set_proxy_monitor_enabled b newState) ;;
     setIsLoggingEnabled newState)
    (consoleError "Failed to toggle logging").

(** [clearLogs] (lines 122-137). *)
Definition clearLogs (b : Backend) : Act unit :=
  confirmed <- ask b ;;
  if (confirmed : bool) then
    tryCatch
      (invoke clear_proxy_logs (on_clear_proxy_logs b) ;;
       setLogs [] ;;
       setStats zeroStats)
      (consoleError "Failed to clear logs")
  else ret tt.

(** The state and the trace left by each command, started in a world with
    an empty trace. *)
Definition boot (b : Backend) (m : Monitor) : World :=
  snd (loadData b (startWorld m)).

Definition toggled (b : Backend) (m : Monitor) : World :=
  snd (toggleLogging b (startWorld m)).

Definition cleared (b : Backend) (m : Monitor) : World :=
  snd (clearLogs b (startWorld m)).

(** ** Vocabulary for the statements *)

(** The commands of the configuration step of [loadData], in order. *)
Definition configCommands (b : Backend) : list Command :=
  load_config ::
  match on_load_config b with
  | Resolved (Some {| proxy := Some p |}) =>
      [set_proxy_monitor_enabled (enable_logging p)]
  | _ => []
  end.

(** The configuration step of [loadData] goes through: the read resolves
    and, when there is a [proxy] section, so does the backend sync. *)
Definition configStepOk (b : Backend) : bool :=
  match on_load_config b with
  | Resolved (Some {| proxy := Some p |}) =>
      match on_set_proxy_monitor_enabled b (enable_logging p) with
      | Resolved _ => true
      | Rejected _ => false
      end
  | Resolved _ => true
  | Rejected _ => false
  end.

(** The history step of [loadData] resolves (with an array or not). *)
Definition historyStepOk (b : Backend) : bool :=
  match on_get_proxy_logs b 100 with
  | Resolved _ => true
  | Rejected _ => false
  end.

(** During a toggle, the configuration read fails. *)
Definition readFails (b : Backend) : Prop :=
  exists e, on_load_config b = Rejected e.

(** During a toggle towards [newState], the configuration write fails. *)
Definition writeFails (b : Backend) (newState : bool) : Prop :=
  exists config config' e,
    on_load_config b = Resolved config /\
    assignEnableLogging config newState = Some config' /\
    on_save_config b config' = Rejected e.

(** ** Sample collaborators *)

Definition numbered (n : nat) : ProxyRequestLog :=
  {| id := toString (Z.of_nat n); timestamp := Z.of_nat n; method := "POST";
     url := "/v1/chat/completions"; status := 200; duration := 1;
     model := None; error := None; request_body := None;
     response_body := None; input_tokens := None; output_tokens := None |}.

(** [n] records, numbered from 0. *)
Definition batch (n : nat) : list ProxyRequestLog :=
  map numbered (seq 0 n).

(** A backend in which everything works: logging is on, the durable
    history is [durable], of which [get_proxy_logs] returns at most
    [limit], and the stats snapshot is [snapshot]. *)
Definition healthy (durable : list ProxyRequestLog) (snapshot : ProxyStats) : Backend :=
  {| on_load_config := Resolved (Some {| proxy := Some {| enable_logging := true |} |});
     on_save_config := fun _ => Resolved tt;
     on_set_proxy_monitor_enabled := fun _ => Resolved tt;
     on_get_proxy_logs := fun limit => Resolved (HArray (firstn (Z.to_nat limit) durable));
     on_get_proxy_stats := Resolved (Some snapshot);
     on_clear_proxy_logs := Resolved tt;
     on_ask := Resolved true |}.

(** The same, with a configuration store that cannot be read. *)
Definition configDown (durable : list ProxyRequestLog) (snapshot : ProxyStats) : Backend :=
  {| on_load_config := Rejected "config unavailable";
     on_save_config := on_save_config (healthy durable snapshot);
     on_set_proxy_monitor_enabled := on_set_proxy_monitor_enabled (healthy durable snapshot);
     on_get_proxy_logs := on_get_proxy_logs (healthy durable snapshot);
     on_get_proxy_stats := on_get_proxy_stats (healthy durable snapshot);
     on_clear_proxy_logs := on_clear_proxy_logs (healthy durable snapshot);
     on_ask := on_ask (healthy durable snapshot) |}.

(** The same, with a configuration store that cannot be written. *)
Definition configReadOnly (durable : list ProxyRequestLog) (snapshot : ProxyStats) : Backend :=
  {| on_load_config := on_load_config (healthy durable snapshot);
     on_save_config := fun _ => Rejected "config read-only";
     on_set_proxy_monitor_enabled := on_set_proxy_monitor_enabled (healthy durable snapshot);
     on_get_proxy_logs := on_get_proxy_logs (healthy durable snapshot);
     on_get_proxy_stats := on_get_proxy_stats (healthy durable snapshot);
     on_clear_proxy_logs := on_clear_proxy_logs (healthy durable snapshot);
     on_ask := on_ask (healthy durable snapshot) |}.


(** A backend whose history endpoint ignores the limit and returns the
    whole of [durable]. *)
Definition unbounded (durable : list ProxyRequestLog) (snapshot : ProxyStats) : Backend :=
  {| on_load_config := on_load_config (healthy durable snapshot);
     on_save_config := on_save_config (healthy durable snapshot);
     on_set_proxy_monitor_enabled := on_set_proxy_monitor_enabled (healthy durable snapshot);
     on_get_proxy_logs := fun _ => Resolved (HArray durable);
     on_get_proxy_stats := on_get_proxy_stats (healthy durable snapshot);
     on_clear_proxy_logs := on_clear_proxy_logs (healthy durable snapshot);
     on_ask := on_ask (healthy durable snapshot) |}.

(** A record on the chat endpoint served by a Gemini model. *)
Definition geminiChat : ProxyRequestLog :=
  {| id := "r1"; timestamp := 0; method := "POST";
     url := "/v1/chat/completions"; status := 200; duration := 12;
     model := Some "gemini-pro"; error := None; request_body := None;
     response_body := None; input_tokens := None; output_tokens := None |}.

(** A record on the chat endpoint served by a Claude model. *)
Definition claudeChat : ProxyRequestLog :=
  {| id := "r2"; timestamp := 0; method := "POST";
     url := "/v1/chat/completions"; status := 200; duration := 12;
     model := Some "claude-sonnet"; error := None; request_body := None;
     response_body := None; input_tokens := None; output_tokens := None |}.

(** Backends in which one bootstrap step is out of order. *)
Definition syncDown (durable : list ProxyRequestLog) (snapshot : ProxyStats) : Backend :=
  {| on_load_config := on_load_config (healthy durable snapshot);
     on_save_config := on_save_config (healthy durable snapshot);
     on_set_proxy_monitor_enabled := fun _ => Rejected "proxy not running";
     on_get_proxy_logs := on_get_proxy_logs (healthy durable snapshot);
     on_get_proxy_stats := on_get_proxy_stats (healthy durable snapshot);
     on_clear_proxy_logs := on_clear_proxy_logs (healthy durable snapshot);
     on_ask := on_ask (healthy durable snapshot) |}.

Definition historyDown (durable : list ProxyRequestLog) (snapshot : ProxyStats) : Backend :=
  {| on_load_config := on_load_config (healthy durable snapshot);
     on_save_config := on_save_config (healthy durable snapshot);
     on_set_proxy_monitor_enabled := on_set_proxy_monitor_enabled (healthy durable snapshot);
     on_get_proxy_logs := fun _ => Rejected "history unavailable";
     on_get_proxy_stats := on_get_proxy_stats (healthy durable snapshot);
     on_clear_proxy_logs := on_clear_proxy_logs (healthy durable snapshot);
     on_ask := on_ask (healthy durable snapshot) |}.

Definition statsDown (durable : list ProxyRequestLog) (snapshot : ProxyStats) : Backend :=
  {| on_load_config := on_load_config (healthy durable snapshot);
     on_save_config := on_save_config (healthy durable snapshot);
     on_set_proxy_monitor_enabled := on_set_proxy_monitor_enabled (healthy durable snapshot);
     on_get_proxy_logs := on_get_proxy_logs (healthy durable snapshot);
     on_get_proxy_stats := Rejected "stats unavailable";
     on_clear_proxy_logs := on_clear_proxy_logs (healthy durable snapshot);
     on_ask := on_ask (healthy durable snapshot) |}.


(** A monitor that has seen three requests, two of them successful. *)
Definition busyMonitor : Monitor :=
  {| logs := batch 3;
     stats := {| total_requests := 3; success_count := 2; error_count := 1 |};
     filter := EmptyString; isLoggingEnabled := true |}.

(** ** The rest of the view logic *)

(** [quickFilters] (lines 113-120): the label is the translation key handed
    to [t], the value is what the button writes into [filter]. *)
Definition quickFilters : list (string * string) :=
  [ ("monitor.filters.all", EmptyString);
    ("monitor.filters.error", "40");
    ("monitor.filters.chat", "completions");
    ("monitor.filters.gemini", "gemini");
    ("monitor.filters.claude", "claude");
    ("monitor.filters.images", "images") ].

(** [setFilter(value)]: the [onChange] of the search box (line 177), the
    [onClick] of a quick-filter button (line 210) and of the reset link
    (line 222). *)
Definition setFilter (value : string) (m : Monitor) : Monitor :=
  {| logs := logs m; stats := stats m; filter := value;
     isLoggingEnabled := isLoggingEnabled m |}.

(** The test that picks the green badge over the red one in a table row
    (line 253) and in the detail header (line 305). *)
Definition badgeSuccess (log : ProxyRequestLog) : bool :=
  (200 <=? status log) && (status log <? 400).

(** The placeholder row is shown when [filteredLogs.length === 0]
    (line 286). *)
Definition showsEmptyRow (m : Monitor) : bool :=
  (List.length (filteredLogs m) =? 0)%nat.

(** How many records of a list pass a test. *)
Definition countIf (p : ProxyRequestLog -> bool) (l : list ProxyRequestLog) : Z :=
  Z.of_nat (List.length (List.filter p l)).

(** ** The subscription life cycle (lines 78-104) *)

(** What can happen to the effect after the mount: the promise returned by
    [listen] resolves (and [unlistenFn] is assigned), or React runs the
    clean-up returned by the effect. *)
Inductive Signal : Type :=
| ListenResolved
| Cleanup.

(** The closure variable [unlistenFn] ([true] once assigned) and the number
    of calls made to the function it holds. *)
Record Subscription : Type := mkSubscription {
  unlistenFn : bool;
  unlistenCalls : nat
}.

(** [let unlistenFn = null] (line 81). *)
Definition mounted : Subscription :=
  {| unlistenFn := false; unlistenCalls := 0 |}.

(** [unlistenFn = await listen(...)] (line 84) and
    [if (unlistenFn) unlistenFn()] (line 102). *)
Definition signal (sub : Subscription) (s : Signal) : Subscription :=
  match s with
  | ListenResolved => {| unlistenFn := true; unlistenCalls := unlistenCalls sub |}
  | Cleanup =>
      if unlistenFn sub
      then {| unlistenFn := true; unlistenCalls := S (unlistenCalls sub) |}
      else sub
  end.

Definition lifecycle (schedule : list Signal) : Subscription :=
  fold_left signal schedule mounted.

(** The clean-ups of a schedule that come after the first
    [ListenResolved]. *)
Fixpoint cleanupsAfterListen (schedule : list Signal) : nat :=
  match schedule with
  | [] => 0
  | ListenResolved :: rest =>
      List.length (List.filter (fun s => match s with Cleanup => true | _ => false end) rest)
  | Cleanup :: rest => cleanupsAfterListen rest
  end.

(** A monitor whose stats snapshot does not add up. *)
Definition skewedMonitor : Monitor :=
  {| logs := batch 3;
     stats := {| total_requests := 9; success_count := 2; error_count := 1 |};
     filter := "chat"; isLoggingEnabled := true |}.

(** A backend whose configuration has no [proxy] section. *)
Definition noProxySection (durable : list ProxyRequestLog) (snapshot : ProxyStats) : Backend :=
  {| on_load_config := Resolved (Some {| proxy := None |});
     on_save_config := on_save_config (healthy durable snapshot);
     on_set_proxy_monitor_enabled := on_set_proxy_monitor_enabled (healthy durable snapshot);
     on_get_proxy_logs := on_get_proxy_logs (healthy durable snapshot);
     on_get_proxy_stats := on_get_proxy_stats (healthy durable snapshot);
     on_clear_proxy_logs := on_clear_proxy_logs (healthy durable snapshot);
     on_ask := on_ask (healthy durable snapshot) |}.

(** A backend whose history and stats replies are not what is expected:
    no array, no stats object. *)
Definition malformed (durable : list ProxyRequestLog) (snapshot : ProxyStats) : Backend :=
  {| on_load_config := on_load_config (healthy durable snapshot);
     on_save_config := on_save_config (healthy durable snapshot);
     on_set_proxy_monitor_enabled := on_set_proxy_monitor_enabled (healthy durable snapshot);
     on_get_proxy_logs := fun _ => Resolved HNotArray;
     on_get_proxy_stats := Resolved None;
     on_clear_proxy_logs := on_clear_proxy_logs (healthy durable snapshot);
     on_ask := on_ask (healthy durable snapshot) |}.

(** A dialog that fails to open. *)
Definition dialogDown (durable : list ProxyRequestLog) (snapshot : ProxyStats) : Backend :=
  {| on_load_config := on_load_config (healthy durable snapshot);
     on_save_config := on_save_config (healthy durable snapshot);
     on_set_proxy_monitor_enabled := on_set_proxy_monitor_enabled (healthy durable snapshot);
     on_get_proxy_logs := on_get_proxy_logs (healthy durable snapshot);
     on_get_proxy_stats := on_get_proxy_stats (healthy durable snapshot);
     on_clear_proxy_logs := on_clear_proxy_logs (healthy durable snapshot);
     on_ask := Rejected "dialog unavailable" |}.

(** ** More vocabulary for the statements *)

(** A string of ASCII code units only. *)
Definition asciiOnly (s : string) : bool :=
  allChars (fun c => (nat_of_ascii c <? 128)%nat) s.

(** A record whose three text fields read by the filter are ASCII. *)
Definition asciiRecord (r : ProxyRequestLog) : bool :=
  asciiOnly (url r) && asciiOnly (method r)
  && match model r with
     | Some mo => asciiOnly mo
     | None => true
     end.

(** The recording flag once the configuration step of [loadData] is over:
    the configured value when there is a [proxy] section, the old value
    otherwise. *)
Definition flagAfterConfig (b : Backend) (m : Monitor) : bool :=
  match on_load_config b with
  | Resolved (Some {| proxy := Some p |}) => enable_logging p
  | _ => isLoggingEnabled m
  end.

(** The store once the history step of [loadData] is over: the array that
    came back, the old store when the reply is no array. *)
Definition logsAfterHistory (b : Backend) (m : Monitor) : list ProxyRequestLog :=
  match on_get_proxy_logs b 100 with
  | Resolved (HArray records) => records
  | _ => logs m
  end.
(** ** Facts about the handler *)

Lemma deliver_app (xs ys : list ProxyRequestLog) (m : Monitor) :
  deliver (xs ++ ys) m = deliver ys (deliver xs m).
Proof. unfold deliver. apply fold_left_app. Qed.

Lemma deliver_snoc (xs : list ProxyRequestLog) (e : ProxyRequestLog) (m : Monitor) :
  deliver (xs ++ [e]) m = listener e (deliver xs m).
Proof. rewrite deliver_app. reflexivity. Qed.

Lemma statsUpdater_imbalance (e : ProxyRequestLog) (s : ProxyStats) :
  imbalance (statsUpdater e s) = imbalance s.
Proof.
  unfold imbalance, statsUpdater; simpl.
  destruct (isSuccess e); lia.
Qed.

Lemma deliver_imbalance (events : list ProxyRequestLog) (m : Monitor) :
  imbalance (stats (deliver events m)) = imbalance (stats m).
Proof.
  revert m. induction events as [|e events IH]; intro m.
  - reflexivity.
  - change (deliver (e :: events) m) with (deliver events (listener e m)).
    rewrite IH. apply statsUpdater_imbalance.
Qed.

Lemma isSuccess_spec (r : ProxyRequestLog) :
  isSuccess r = true <-> 200 <= status r < 400.
Proof.
  unfold isSuccess. rewrite andb_true_iff, Z.leb_le, Z.ltb_lt. tauto.
Qed.

Lemma firstn_cons_firstn {A : Type} (n : nat) (x : A) (l : list A) :
  firstn n (x :: firstn n l) = firstn n (x :: l).
Proof.
  destruct n as [|n]; [reflexivity|].
  rewrite !firstn_cons. f_equal.
  rewrite firstn_firstn. f_equal. lia.
Qed.

(** Delivering a run of events amounts to stacking them, newest first, on
    top of the old contents and keeping the first [capacity] records. *)
Lemma deliver_logs (e : ProxyRequestLog) (events : list ProxyRequestLog) (m : Monitor) :
  logs (deliver (events ++ [e]) m) = firstn capacity (rev (events ++ [e]) ++ logs m).
Proof.
  revert e. induction events as [|e' events IH] using rev_ind; intro e.
  - reflexivity.
  - rewrite deliver_snoc. cbn [listener logs]. rewrite IH.
    unfold logsUpdater. rewrite firstn_cons_firstn.
    rewrite (rev_app_distr _ [e]). reflexivity.
Qed.

(** ** Facts about strings *)

Lemma startsWith_spec (s q : string) :
  startsWith s q = true <-> exists b, s = (q ++ b)%string.
Proof.
  revert s. induction q as [|c q IH]; intro s.
  - split; [intros _; exists s; reflexivity | reflexivity].
  - destruct s as [|d s]; cbn [startsWith].
    + split; [discriminate | intros [b Hb]; discriminate Hb].
    + rewrite andb_true_iff, Ascii.eqb_eq, IH. split.
      * intros [-> [b ->]]. exists b. reflexivity.
      * intros [b Hb]. cbn in Hb. injection Hb as -> ->.
        split; [reflexivity | exists b; reflexivity].
Qed.

Lemma includes_spec (s q : string) :
  includes s q = true <-> substringOf q s.
Proof.
  unfold substringOf. induction s as [|d s IH]; cbn [includes].
  - rewrite orb_false_r, startsWith_spec. split.
    + intros [b Hb]. exists EmptyString, b. exact Hb.
    + intros [a [b Hab]]. destruct a as [|x a]; [|discriminate Hab].
      exists b. exact Hab.
  - rewrite orb_true_iff, startsWith_spec, IH. split.
    + intros [[b Hb] | [a [b Hab]]].
      * exists EmptyString, b. exact Hb.
      * exists (String d a), b. cbn. rewrite Hab. reflexivity.
    + intros [a [b Hab]]. destruct a as [|x a].
      * left. exists b. exact Hab.
      * right. cbn in Hab. injection Hab as _ ->. exists a, b. reflexivity.
Qed.

Lemma toLowerCase_app (a b : string) :
  toLowerCase (a ++ b) = (toLowerCase a ++ toLowerCase b)%string.
Proof.
  induction a as [|c a IH]; cbn; [reflexivity | rewrite IH; reflexivity].
Qed.

Lemma toLowerCase_split (s a b : string) :
  toLowerCase s = (a ++ b)%string ->
  exists a' b', s = (a' ++ b')%string /\ toLowerCase a' = a /\ toLowerCase b' = b.
Proof.
  revert s. induction a as [|c a IH]; intros s H.
  - exists EmptyString, s. repeat split; assumption.
  - destruct s as [|d s]; [discriminate H|].
    cbn in H. injection H as Hc Hs.
    destruct (IH s Hs) as [a' [b' [-> [Ha Hb]]]].
    exists (String d a'), b'. cbn. rewrite Hc, Ha. repeat split; assumption.
Qed.

Lemma includes_toLowerCase (s q : string) :
  includes (toLowerCase s) (toLowerCase q) = true <-> ciSubstringOf q s.
Proof.
  rewrite includes_spec. unfold substringOf, ciSubstringOf. split.
  - intros [a [b H]].
    destruct (toLowerCase_split _ _ _ H) as [a' [r [-> [_ Hr]]]].
    destruct (toLowerCase_split _ _ _ Hr) as [mid [b' [-> [Hm _]]]].
    exists a', mid, b'. split; [reflexivity | exact Hm].
  - intros [a [mid [b [-> Hm]]]].
    exists (toLowerCase a), (toLowerCase b).
    rewrite !toLowerCase_app, Hm. reflexivity.
Qed.

Lemma includes_empty (s : string) : includes s EmptyString = true.
Proof. destruct s; reflexivity. Qed.

(** A string none of whose characters is [c] contains no string that
    starts with [c]. *)
Lemma includes_foreign (p : ascii -> bool) (s : string) (c : ascii) (q : string) :
  allChars p s = true -> p c = false -> includes s (String c q) = false.
Proof.
  intros Hs Hc. induction s as [|d s IH]; [reflexivity|].
  cbn in Hs. apply andb_true_iff in Hs as [Hd Hs].
  cbn [includes startsWith].
  rewrite (IH Hs), orb_false_r.
  destruct (Ascii.eqb c d) eqn:E; [|reflexivity].
  apply Ascii.eqb_eq in E. congruence.
Qed.

Lemma string_of_uint_chars (d : Decimal.uint) :
  allChars isDigitOrMinus (NilEmpty.string_of_uint d) = true.
Proof. induction d; cbn; auto. Qed.

Lemma toString_chars (n : Z) : allChars isDigitOrMinus (toString n) = true.
Proof.
  unfold toString. destruct (Z.to_int n) as [d|d]; cbn;
    apply string_of_uint_chars.
Qed.

(** ** Facts about the commands *)

(** Unfolds a command down to the answers of the backend. *)
Ltac run :=
  unfold boot, toggled, cleared, loadData, toggleLogging, clearLogs,
    tryCatch, bind, invoke, ret, throw, ask, setLogs, setStats,
    setIsLoggingEnabled, modify, readIsLoggingEnabled, consoleError,
    startWorld, configStepOk, historyStepOk, configCommands in *;
  cbn in *.

(** Splits on the answers of the backend that the goal still branches on. *)
Ltac branch :=
  repeat (match goal with
          | |- context [on_load_config ?b] =>
              destruct (on_load_config b) as [[[[?|]]|]|?] eqn:?
          | |- context [on_save_config ?b ?c] =>
              destruct (on_save_config b c) as [[]|?] eqn:?
          | |- context [on_set_proxy_monitor_enabled ?b ?x] =>
              destruct (on_set_proxy_monitor_enabled b x) as [[]|?] eqn:?
          | |- context [on_get_proxy_logs ?b ?n] =>
              destruct (on_get_proxy_logs b n) as [[?|]|?] eqn:?
          | |- context [on_get_proxy_stats ?b] =>
              destruct (on_get_proxy_stats b) as [[?|]|?] eqn:?
          | |- context [on_clear_proxy_logs ?b] =>
              destruct (on_clear_proxy_logs b) as [[]|?] eqn:?
          | |- context [on_ask ?b] =>
              destruct (on_ask b) as [[|]|?] eqn:?
          end; cbn in *; try discriminate).

Lemma loadData_resolves (b : Backend) (w : World) :
  fst (loadData b w) = Resolved tt.
Proof. run. branch; reflexivity. Qed.

Lemma boot_installs_history (b : Backend) (m : Monitor) (records : list ProxyRequestLog) :
  configStepOk b = true ->
  on_get_proxy_logs b 100 = Resolved (HArray records) ->
  logs (view (boot b m)) = records.
Proof. intros Hc Hh. run. rewrite Hh. branch; reflexivity. Qed.

Lemma boot_installs_snapshot (b : Backend) (m : Monitor) (snap : ProxyStats) :
  configStepOk b = true ->
  historyStepOk b = true ->
  on_get_proxy_stats b = Resolved (Some snap) ->
  stats (view (boot b m)) = snap.
Proof. intros Hc Hh Hs. run. rewrite Hs. branch; reflexivity. Qed.

Lemma logsUpdater_length (r : ProxyRequestLog) (prev : list ProxyRequestLog) :
  List.length (logsUpdater r prev) = Nat.min (List.length prev + 1) capacity.
Proof.
  unfold logsUpdater. rewrite length_firstn. cbn [List.length]. lia.
Qed.

(** ** Bootstrap *)

(** C1 (as amended).  During [loadData] a failing fetch is logged once by
    the single [catch] and never escapes, so start-up is not aborted; but
    the failing step and every step after it are skipped and leave what is
    in memory as it was, while the steps before it stay applied: the flag
    set from the configuration survives a later failure, and so does the
    installed history when the stats fetch fails.  A failure of the
    configuration fetch leaves the whole state untouched and [load_config]
    is the only command issued: the history and the stats are not
    fetched. *)
Theorem loadData_stops_at_first_failure (b : Backend) (m : Monitor) :
  fst (loadData b (startWorld m)) = Resolved tt /\
  (forall e,
     on_load_config b = Rejected e ->
     view (boot b m) = m /\
     issued (boot b m) = [load_config] /\
     console (boot b m) = [("Failed to load proxy data", e)]) /\
  (forall p e,
     on_load_config b = Resolved (Some {| proxy := Some p |}) ->
     on_set_proxy_monitor_enabled b (enable_logging p) = Rejected e ->
     view (boot b m)
     = {| logs := logs m; stats := stats m; filter := filter m;
          isLoggingEnabled := enable_logging p |} /\
     isLoggingEnabled (view (boot b m)) = enable_logging p /\
     logs (view (boot b m)) = logs m /\
     stats (view (boot b m)) = stats m /\
     issued (boot b m) = configCommands b /\
     console (boot b m) = [("Failed to load proxy data", e)]) /\
  (forall e,
     configStepOk b = true ->
     on_get_proxy_logs b 100 = Rejected e ->
     view (boot b m)
     = {| logs := logs m; stats := stats m; filter := filter m;
          isLoggingEnabled := flagAfterConfig b m |} /\
     logs (view (boot b m)) = logs m /\
     stats (view (boot b m)) = stats m /\
     issued (boot b m) = configCommands b ++ [get_proxy_logs 100] /\
     console (boot b m) = [("Failed to load proxy data", e)]) /\
  (forall e,
     configStepOk b = true ->
     historyStepOk b = true ->
     on_get_proxy_stats b = Rejected e ->
     view (boot b m)
     = {| logs := logsAfterHistory b m; stats := stats m; filter := filter m;
          isLoggingEnabled := flagAfterConfig b m |} /\
     stats (view (boot b m)) = stats m /\
     issued (boot b m) = configCommands b ++ [get_proxy_logs 100; get_proxy_stats] /\
     console (boot b m) = [("Failed to load proxy data", e)]).
Proof.
  split; [apply loadData_resolves|].
  split; [|split; [|split]].
  - intros e He. run. rewrite He. cbn. destruct m; repeat split.
  - intros p e Hc Hs. run. rewrite Hc. cbn. rewrite Hs. cbn. repeat split.
  - intros e Hc Hh. unfold flagAfterConfig. destruct m as [l s q on]. run.
    rewrite Hh in *. branch; repeat split.
  - intros e Hc Hh Hs. unfold flagAfterConfig, logsAfterHistory.
    destruct m as [l s q on]. run. rewrite Hs in *. branch; repeat split.
Qed.

Lemma loadData_stops_at_first_failure_witness :
  (view (boot (configDown (batch 3) zeroStats) busyMonitor) = busyMonitor /\
   issued (boot (configDown (batch 3) zeroStats) busyMonitor) = [load_config]) /\
  view (boot (historyDown (batch 3) zeroStats) initialMonitor)
  = {| logs := []; stats := zeroStats; filter := EmptyString;
       isLoggingEnabled := true |} /\
  view (boot (statsDown (batch 3) zeroStats) initialMonitor)
  = {| logs := batch 3; stats := zeroStats; filter := EmptyString;
       isLoggingEnabled := true |} /\
  (isLoggingEnabled (view (boot (syncDown (batch 3) zeroStats) initialMonitor)) = true /\
   logs (view (boot (syncDown (batch 3) zeroStats) initialMonitor)) = []).
Proof.
  split; [|split; [|split]].
  - destruct (loadData_stops_at_first_failure
                (configDown (batch 3) zeroStats) busyMonitor)
      as [_ [H _]].
    destruct (H "config unavailable" eq_refl) as [Hv [Hi _]].
    split; assumption.
  - destruct (loadData_stops_at_first_failure
                (historyDown (batch 3) zeroStats) initialMonitor)
      as [_ [_ [_ [H _]]]].
    destruct (H "history unavailable" eq_refl eq_refl) as [Hv _].
    exact Hv.
  - destruct (loadData_stops_at_first_failure
                (statsDown (batch 3) zeroStats) initialMonitor)
      as [_ [_ [_ [_ H]]]].
    destruct (H "stats unavailable" eq_refl eq_refl eq_refl) as [Hv _].
    exact Hv.
  - destruct (loadData_stops_at_first_failure
                (syncDown (batch 3) zeroStats) initialMonitor)
      as [_ [_ [H _]]].
    destruct (H {| enable_logging := true |} "proxy not running" eq_refl eq_refl)
      as [_ [Hon [Hl _]]].
    split; assumption.
Defined.

(** With the configuration store down, a history of three records and a
    stats snapshot are on offer and neither is asked for nor applied. *)
Lemma config_failure_skips_history_and_stats :
  let snapshot := {| total_requests := 3; success_count := 2; error_count := 1 |} in
  let b := configDown (batch 3) snapshot in
  let w := boot b initialMonitor in
  on_get_proxy_logs b 100 = Resolved (HArray (batch 3)) /\
  on_get_proxy_stats b = Resolved (Some snapshot) /\
  issued w = [load_config] /\
  ~ In (get_proxy_logs 100) (issued w) /\
  ~ In get_proxy_stats (issued w) /\
  logs (view w) = [] /\
  logs (view w) <> batch 3 /\
  stats (view w) = zeroStats /\
  stats (view w) <> snapshot.
Proof.
  cbv zeta. repeat split; try reflexivity.
  - cbn. intros [H | []]. discriminate H.
  - cbn. intros [H | []]. discriminate H.
  - cbn. discriminate.
  - cbn. discriminate.
Qed.

(** C2 (as amended).  On activation the history fetch is made with the
    limit 100, not with the store capacity of 1000: no other limit is ever
    passed, the fetch is issued whenever the configuration step goes
    through, and an array that comes back is installed wholesale into
    [logs]. *)
Theorem loadData_history_limit (b : Backend) (m : Monitor) :
  (forall limit, In (get_proxy_logs limit) (issued (boot b m)) -> limit = 100) /\
  (configStepOk b = true -> In (get_proxy_logs 100) (issued (boot b m))) /\
  (forall records,
     configStepOk b = true ->
     on_get_proxy_logs b 100 = Resolved (HArray records) ->
     logs (view (boot b m)) = records).
Proof.
  split; [|split].
  - intros limit. run. branch; cbn; intros H;
      repeat (destruct H as [H | H]; try discriminate H; try (injection H as <-; reflexivity));
      try contradiction.
  - intros Hc. run. branch; cbn; auto 6.
  - intros records. apply boot_installs_history.
Qed.

Lemma loadData_history_limit_witness :
  In (get_proxy_logs 100) (issued (boot (healthy (batch 1000) zeroStats) initialMonitor)) /\
  logs (view (boot (healthy (batch 1000) zeroStats) initialMonitor)) = batch 100.
Proof.
  destruct (loadData_history_limit (healthy (batch 1000) zeroStats) initialMonitor)
    as [_ [Hi Hl]].
  split.
  - apply Hi. reflexivity.
  - apply Hl; reflexivity.
Defined.

(** With a durable history of 1000 records behind a backend that honours
    the limit, the request carries 100 and 100 records are loaded. *)
Lemma loadData_requests_100_not_1000 :
  let w := boot (healthy (batch 1000) zeroStats) initialMonitor in
  issued w = [load_config; set_proxy_monitor_enabled true;
              get_proxy_logs 100; get_proxy_stats] /\
  ~ In (get_proxy_logs (Z.of_nat capacity)) (issued w) /\
  List.length (logs (view w)) = 100%nat /\
  List.length (logs (view w)) <> capacity.
Proof.
  cbv zeta. split; [reflexivity|]. split; [|split].
  - cbn. intros [H | [H | [H | [H | []]]]]; discriminate H.
  - vm_compute. reflexivity.
  - vm_compute. discriminate.
Qed.

(** ** Live events *)

(** C3.  Starting from the zero stats, whatever the rest of the state, after
    every event of every run of live events the total equals successes
    plus errors; and one event adds exactly 1 to the total and exactly 1 to
    exactly one of the two other counters. *)
Theorem stats_balanced_after_every_event
  (l : list ProxyRequestLog) (q : string) (on : bool)
  (events : list ProxyRequestLog) (k : nat) (e : ProxyRequestLog) (m : Monitor) :
  let m0 := {| logs := l; stats := zeroStats; filter := q; isLoggingEnabled := on |} in
  let s := stats (deliver (firstn k events) m0) in
  let before := stats m in
  let after := stats (listener e m) in
  total_requests s = success_count s + error_count s /\
  total_requests after = total_requests before + 1 /\
  ((success_count after = success_count before + 1 /\
    error_count after = error_count before) \/
   (success_count after = success_count before /\
    error_count after = error_count before + 1)).
Proof.
  cbv zeta. split.
  - pose proof (deliver_imbalance (firstn k events)
                  {| logs := l; stats := zeroStats; filter := q;
                     isLoggingEnabled := on |}) as H.
    unfold imbalance in H. cbn in H. lia.
  - cbn. destruct (isSuccess e); lia.
Qed.

(** C4.  A live event puts its record at the front of [logs] and cuts the
    tail so that at most 1000 records remain, whatever was there before;
    1001 records inserted one at a time into an empty store leave exactly
    the last 1000, newest first, without the first one inserted. *)
Theorem insert_prepends_and_caps
  (m : Monitor) (r : ProxyRequestLog) (events : list ProxyRequestLog) (q : string)
  (on : bool) (s : ProxyStats) :
  (exists dropped, r :: logs m = logs (listener r m) ++ dropped) /\
  hd_error (logs (listener r m)) = Some r /\
  (List.length (logs (listener r m)) <= capacity)%nat /\
  (List.length events = S capacity ->
   let final := logs (deliver events
                        {| logs := []; stats := s; filter := q;
                           isLoggingEnabled := on |}) in
   final = rev (tl events) /\
   List.length final = capacity /\
   hd_error final = Some (last events r)).
Proof.
  split; [|split; [|split]].
  - exists (skipn capacity (r :: logs m)). cbn [listener logs].
    unfold logsUpdater. symmetry. apply firstn_skipn.
  - reflexivity.
  - cbn [listener logs]. rewrite logsUpdater_length. lia.
  - intros Hlen. cbv zeta.
    destruct events as [|oldest rest]; [discriminate Hlen|].
    cbn [List.length] in Hlen. injection Hlen as Hlen.
    assert (Hfinal :
              logs (deliver (oldest :: rest)
                      {| logs := []; stats := s; filter := q;
                         isLoggingEnabled := on |}) = rev rest).
    { destruct (exists_last (l := oldest :: rest)) as [init [newest Heq]];
        [discriminate|].
      rewrite Heq, deliver_logs, <- Heq. cbn [logs rev].
      rewrite app_nil_r, firstn_app, length_rev, Hlen, Nat.sub_diag.
      cbn [firstn]. rewrite app_nil_r.
      apply firstn_all2. rewrite length_rev. lia. }
    rewrite Hfinal. cbn [tl]. split; [reflexivity|].
    split; [rewrite length_rev; exact Hlen|].
    destruct (exists_last (l := rest)) as [init [newest Heq]].
    { intros ->. discriminate Hlen. }
    rewrite Heq, rev_app_distr. cbn [rev app hd_error].
    f_equal.
    change (oldest :: init ++ [newest]) with ((oldest :: init) ++ [newest]).
    symmetry. apply last_last.
Qed.

Lemma insert_prepends_and_caps_witness :
  logs (deliver (batch 1001) initialMonitor) = rev (tl (batch 1001)) /\
  List.length (logs (deliver (batch 1001) initialMonitor)) = capacity /\
  hd_error (logs (deliver (batch 1001) initialMonitor))
  = Some (last (batch 1001) (numbered 0)).
Proof.
  apply (insert_prepends_and_caps initialMonitor (numbered 0) (batch 1001)
           EmptyString false zeroStats).
  vm_compute. reflexivity.
Defined.

(** C5.  A record counts as a success exactly when 200 <= status < 400, and
    the stats updater follows that verdict: 200 and 399 are successes, 400
    and 404 are errors. *)
Theorem classification_by_status (r : ProxyRequestLog) (s : ProxyStats) :
  (isSuccess r = true <-> 200 <= status r < 400) /\
  (success_count (statsUpdater r s) = success_count s + 1 /\
   error_count (statsUpdater r s) = error_count s
   <-> 200 <= status r < 400) /\
  (success_count (statsUpdater r s) = success_count s /\
   error_count (statsUpdater r s) = error_count s + 1
   <-> ~ 200 <= status r < 400) /\
  isSuccess (logWithStatus 200) = true /\
  isSuccess (logWithStatus 399) = true /\
  isSuccess (logWithStatus 400) = false /\
  isSuccess (logWithStatus 404) = false.
Proof.
  pose proof (isSuccess_spec r) as H.
  split; [exact H|].
  unfold statsUpdater; cbn.
  destruct (isSuccess r).
  - assert (200 <= status r < 400) by (apply H; reflexivity).
    repeat split; try reflexivity; try lia; try tauto.
  - assert (~ 200 <= status r < 400) by (intro K; apply H in K; discriminate K).
    repeat split; try reflexivity; try lia; try tauto.
Qed.

(** ** Filtering *)

(** C6 (as amended).  For a record and a query made of ASCII characters,
    [matches record query] holds exactly when the query is contained, up
    to letter case, in the url, in the method or in the model when there
    is one, or is contained in the decimal form of the status.  The empty
    query matches every record; a record whose url is
    "/v1/chat/completions" matches "completions"; and an ASCII record
    with that url does not match "gemini" provided neither its method nor
    its model contains "gemini" up to letter case. *)
Theorem matches_characterised (r : ProxyRequestLog) (q : string) :
  (asciiRecord r = true ->
   asciiOnly q = true ->
   (matches r q = true <->
    ciSubstringOf q (url r) \/
    ciSubstringOf q (method r) \/
    (exists mo, model r = Some mo /\ ciSubstringOf q mo) \/
    substringOf q (toString (status r)))) /\
  matches r EmptyString = true /\
  (url r = "/v1/chat/completions" -> matches r "completions" = true) /\
  (asciiRecord r = true ->
   url r = "/v1/chat/completions" ->
   ~ ciSubstringOf "gemini" (method r) ->
   (forall mo, model r = Some mo -> ~ ciSubstringOf "gemini" mo) ->
   matches r "gemini" = false).
Proof.
  split; [|split; [|split]].
  - intros _ _. unfold matches. split.
    + intro H.
      apply orb_true_iff in H as [H | H];
        [apply orb_true_iff in H as [H | H];
         [apply orb_true_iff in H as [H | H]|]|].
      * left. apply includes_toLowerCase, H.
      * right; left. apply includes_toLowerCase, H.
      * right; right; left.
        destruct (model r) as [mo|]; [|discriminate H].
        apply andb_true_iff in H as [_ H].
        exists mo. split; [reflexivity | apply includes_toLowerCase, H].
      * right; right; right. apply includes_spec, H.
    + intros [H | [H | [[mo [Hm H]] | H]]].
      * apply includes_toLowerCase in H. rewrite H. reflexivity.
      * apply includes_toLowerCase in H. rewrite H, orb_true_r. reflexivity.
      * rewrite Hm. destruct (truthy mo) eqn:T.
        -- apply includes_toLowerCase in H. rewrite H. cbn.
           rewrite orb_true_r. reflexivity.
        -- unfold truthy in T. apply negb_false_iff, String.eqb_eq in T.
           subst mo. destruct H as [a [mid [c [Hs Hl]]]].
           destruct a; [|discriminate Hs].
           destruct mid; [|discriminate Hs].
           destruct q; [|discriminate Hl].
           cbn [toLowerCase]. rewrite includes_empty. reflexivity.
      * apply includes_spec in H. rewrite H. apply orb_true_r.
  - unfold matches. cbn [toLowerCase]. rewrite includes_empty. reflexivity.
  - intros Hu. unfold matches. rewrite Hu. reflexivity.
  - intros _ Hu Hmeth Hmod. unfold matches. rewrite Hu.
    replace (includes (toLowerCase "/v1/chat/completions") (toLowerCase "gemini"))
      with false by reflexivity.
    destruct (includes (toLowerCase (method r)) (toLowerCase "gemini")) eqn:E1.
    { exfalso. apply Hmeth, includes_toLowerCase, E1. }
    assert (E2 : match model r with
                 | Some mo => truthy mo && includes (toLowerCase mo) (toLowerCase "gemini")
                 | None => false
                 end = false).
    { destruct (model r) as [mo|] eqn:Em; [|reflexivity].
      destruct (includes (toLowerCase mo) (toLowerCase "gemini")) eqn:E.
      - exfalso. apply (Hmod mo eq_refl), includes_toLowerCase, E.
      - apply andb_false_r. }
    rewrite E2. cbn [orb].
    apply (includes_foreign isDigitOrMinus); [apply toString_chars | reflexivity].
Qed.

Lemma matches_characterised_witness :
  matches claudeChat "SONNET" = true /\
  matches claudeChat "completions" = true /\
  matches claudeChat "gemini" = false.
Proof.
  split; [|split].
  - destruct (matches_characterised claudeChat "SONNET") as [Hiff _].
    apply (Hiff eq_refl eq_refl).
    right; right; left. exists "claude-sonnet". split; [reflexivity|].
    exists "claude-", "sonnet", EmptyString. split; reflexivity.
  - destruct (matches_characterised claudeChat "gemini") as [_ [_ [Hc _]]].
    apply Hc. reflexivity.
  - destruct (matches_characterised claudeChat "gemini") as [_ [_ [_ Hg]]].
    apply Hg.
    + reflexivity.
    + reflexivity.
    + intro H. apply includes_toLowerCase in H. discriminate H.
    + intros mo Hm H. injection Hm as <-.
      apply includes_toLowerCase in H. discriminate H.
Defined.

(** A chat-completions request served by a Gemini model has the url of the
    claim and yet matches "gemini", through its model. *)
Lemma chat_url_can_match_gemini :
  url geminiChat = "/v1/chat/completions" /\
  matches geminiChat "completions" = true /\
  matches geminiChat "gemini" = true.
Proof. repeat split. Qed.

(** ** Toggling *)

(** C7.  When the configuration read or the configuration write fails
    during a toggle, the component state is what it was and no
    [set_proxy_monitor_enabled] is issued; and the recording flag changes
    only after the read, the assignment, the write and the backend sync
    have all gone through, issued in that order. *)
Theorem toggle_updates_state_last (b : Backend) (m : Monitor) :
  let newState := negb (isLoggingEnabled m) in
  (readFails b \/ writeFails b newState ->
   view (toggled b m) = m /\
   forall enabled, ~ In (set_proxy_monitor_enabled enabled) (issued (toggled b m))) /\
  (isLoggingEnabled (view (toggled b m)) <> isLoggingEnabled m ->
   exists config config',
     on_load_config b = Resolved config /\
     assignEnableLogging config newState = Some config' /\
     on_save_config b config' = Resolved tt /\
     on_set_proxy_monitor_enabled b newState = Resolved tt /\
     issued (toggled b m)
     = [load_config; save_config config'; set_proxy_monitor_enabled newState] /\
     isLoggingEnabled (view (toggled b m)) = newState).
Proof.
  cbv zeta. split.
  - intros [[e He] | [config [config' [e [Hr [Ha Hw]]]]]]; run.
    + rewrite He. cbn. split; [destruct m; reflexivity|].
      intros enabled [H | []]. discriminate H.
    + rewrite Hr. cbn. rewrite Ha. cbn. rewrite Hw. cbn.
      split; [destruct m; reflexivity|].
      intros enabled [H | [H | []]]; discriminate H.
  - run. unfold assignEnableLogging.
    destruct (on_load_config b) as [[[[p|]]|]|e] eqn:Hr; cbn;
      try (intros H; exfalso; apply H; reflexivity).
    destruct (on_save_config b _) as [[]|e] eqn:Hw; cbn;
      try (intros H; exfalso; apply H; reflexivity).
    destruct (on_set_proxy_monitor_enabled b _) as [[]|e] eqn:Hs; cbn;
      try (intros H; exfalso; apply H; reflexivity).
    intros _. eexists. eexists.
    repeat (split; [first [reflexivity | exact Hw]|]). reflexivity.
Qed.

Lemma toggle_updates_state_last_witness :
  (view (toggled (configDown [] zeroStats) busyMonitor) = busyMonitor /\
   view (toggled (configReadOnly [] zeroStats) busyMonitor) = busyMonitor) /\
  isLoggingEnabled (view (toggled (healthy [] zeroStats) busyMonitor)) = false.
Proof.
  split; [split|].
  - apply (toggle_updates_state_last (configDown [] zeroStats) busyMonitor).
    left. exists "config unavailable". reflexivity.
  - apply (toggle_updates_state_last (configReadOnly [] zeroStats) busyMonitor).
    right.
    exists (Some {| proxy := Some {| enable_logging := true |} |}),
      {| proxy := Some {| enable_logging := false |} |}, "config read-only".
    repeat split.
  - destruct (toggle_updates_state_last (healthy [] zeroStats) busyMonitor)
      as [_ H].
    destruct H as [config [config' [_ [_ [_ [_ [_ Hn]]]]]]].
    + cbn. discriminate.
    + exact Hn.
Defined.

(** ** Clearing *)



(** ** Snapshots *)

(** C9.  A live event leaves total - (success + error) as it was.  The
    stats snapshot fetched at bootstrap is installed as it comes, so a
    snapshot in which the total is not the sum of the two other counters
    breaks the balance, and it stays broken after every run of live
    events. *)
Theorem skewed_snapshot_persists
  (b : Backend) (m : Monitor) (snap : ProxyStats)
  (events : list ProxyRequestLog) (r : ProxyRequestLog) (m' : Monitor) :
  imbalance (stats (listener r m')) = imbalance (stats m') /\
  (configStepOk b = true ->
   historyStepOk b = true ->
   on_get_proxy_stats b = Resolved (Some snap) ->
   stats (view (boot b m)) = snap /\
   (total_requests snap <> success_count snap + error_count snap ->
    let s := stats (deliver events (view (boot b m))) in
    total_requests s <> success_count s + error_count s)).
Proof.
  split; [apply statsUpdater_imbalance|].
  intros Hc Hh Hs.
  pose proof (boot_installs_snapshot b m snap Hc Hh Hs) as Hsnap.
  split; [exact Hsnap|].
  intros Hskew. cbv zeta.
  pose proof (deliver_imbalance events (view (boot b m))) as H.
  rewrite Hsnap in H. unfold imbalance in H. lia.
Qed.

Lemma skewed_snapshot_persists_witness :
  let skewed := {| total_requests := 5; success_count := 1; error_count := 1 |} in
  let w := boot (healthy (batch 3) skewed) initialMonitor in
  stats (view w) = skewed /\
  stats (deliver [logWithStatus 200; logWithStatus 500] (view w))
  = {| total_requests := 7; success_count := 2; error_count := 2 |} /\
  let s := stats (deliver [logWithStatus 200; logWithStatus 500] (view w)) in
  total_requests s <> success_count s + error_count s.
Proof.
  cbv zeta.
  destruct (skewed_snapshot_persists
              (healthy (batch 3)
                 {| total_requests := 5; success_count := 1; error_count := 1 |})
              initialMonitor
              {| total_requests := 5; success_count := 1; error_count := 1 |}
              [logWithStatus 200; logWithStatus 500]
              (logWithStatus 200) initialMonitor)
    as [_ H].
  destruct (H eq_refl eq_refl eq_refl) as [Hsnap Hkeep].
  split; [exact Hsnap|]. split; [reflexivity|].
  apply Hkeep. cbn. discriminate.
Defined.

(** C10.  Bootstrap installs the array returned by the history fetch as it
    is, whatever its length, so [logs] may then hold more than 1000
    records; the next live event brings the store to
    min(previous length + 1, 1000) records. *)
Theorem snapshot_uncapped_until_next_event
  (b : Backend) (m : Monitor) (records : list ProxyRequestLog) (r : ProxyRequestLog) :
  configStepOk b = true ->
  on_get_proxy_logs b 100 = Resolved (HArray records) ->
  logs (view (boot b m)) = records /\
  List.length (logs (view (boot b m))) = List.length records /\
  List.length (logs (listener r (view (boot b m))))
  = Nat.min (List.length records + 1) capacity.
Proof.
  intros Hc Hh.
  pose proof (boot_installs_history b m records Hc Hh) as H.
  split; [exact H|]. split; [rewrite H; reflexivity|].
  cbn [listener logs]. rewrite logsUpdater_length, H. reflexivity.
Qed.

Lemma snapshot_uncapped_until_next_event_witness :
  let w := boot (unbounded (batch 1500) zeroStats) initialMonitor in
  logs (view w) = batch 1500 /\
  List.length (logs (view w)) = List.length (batch 1500) /\
  List.length (logs (listener (numbered 1500) (view w)))
  = Nat.min (List.length (batch 1500) + 1) capacity.
Proof.
  cbv zeta.
  apply (snapshot_uncapped_until_next_event
           (unbounded (batch 1500) zeroStats) initialMonitor (batch 1500)
           (numbered 1500)); reflexivity.
Defined.

(** * Further properties of the component *)

(** ** More facts about lists and strings *)

Lemma capacity_succ : capacity = S (Nat.pred capacity).
Proof. reflexivity. Qed.

Lemma logsUpdater_room (r : ProxyRequestLog) (prev : list ProxyRequestLog) :
  (List.length prev < capacity)%nat -> logsUpdater r prev = r :: prev.
Proof.
  intros H. unfold logsUpdater. apply firstn_all2. cbn [List.length]. lia.
Qed.

Lemma logsUpdater_full (r : ProxyRequestLog) (prev : list ProxyRequestLog) :
  List.length prev = capacity -> logsUpdater r prev = r :: removelast prev.
Proof.
  intros H. unfold logsUpdater.
  rewrite capacity_succ, firstn_cons, removelast_firstn_len, H. reflexivity.
Qed.

Lemma countIf_cons (p : ProxyRequestLog -> bool) (r : ProxyRequestLog)
      (l : list ProxyRequestLog) :
  countIf p (r :: l) = (if p r then 1 else 0) + countIf p l.
Proof.
  unfold countIf. cbn [List.filter]. destruct (p r); cbn [List.length]; lia.
Qed.

Lemma countIf_rev (p : ProxyRequestLog -> bool) (l : list ProxyRequestLog) :
  countIf p (rev l) = countIf p l.
Proof. unfold countIf. rewrite filter_rev, length_rev. reflexivity. Qed.

Lemma deliver_cons (e : ProxyRequestLog) (events : list ProxyRequestLog) (m : Monitor) :
  deliver (e :: events) m = deliver events (listener e m).
Proof. reflexivity. Qed.

Lemma string_app_assoc (a b c : string) :
  ((a ++ b) ++ c = a ++ (b ++ c))%string.
Proof.
  induction a as [|x a IH]; cbn; [reflexivity | rewrite IH; reflexivity].
Qed.

Lemma substringOf_trans (q q' s : string) :
  substringOf q q' -> substringOf q' s -> substringOf q s.
Proof.
  intros [c [d ->]] [a [b ->]].
  exists (a ++ c)%string, (d ++ b)%string.
  rewrite !string_app_assoc. reflexivity.
Qed.

Lemma substringOf_toLowerCase (q q' : string) :
  substringOf q q' -> substringOf (toLowerCase q) (toLowerCase q').
Proof.
  intros [a [b ->]]. exists (toLowerCase a), (toLowerCase b).
  rewrite !toLowerCase_app. reflexivity.
Qed.

Lemma includes_narrow (s q q' : string) :
  substringOf q q' -> includes s q' = true -> includes s q = true.
Proof.
  intros Hq H. apply includes_spec.
  apply (substringOf_trans q q' s Hq). apply includes_spec, H.
Qed.

Lemma lowerAscii_idempotent (c : ascii) : lowerAscii (lowerAscii c) = lowerAscii c.
Proof. destruct c as [[|] [|] [|] [|] [|] [|] [|] [|]]; reflexivity. Qed.

Lemma lowerAscii_digit (c : ascii) :
  isDigitOrMinus (lowerAscii c) = isDigitOrMinus c.
Proof. destruct c as [[|] [|] [|] [|] [|] [|] [|] [|]]; reflexivity. Qed.

Lemma lowerAscii_fixes_digits (c : ascii) :
  isDigitOrMinus c = true -> lowerAscii c = c.
Proof. destruct c as [[|] [|] [|] [|] [|] [|] [|] [|]]; intros H; try reflexivity; discriminate H. Qed.

Lemma toLowerCase_idempotent (s : string) :
  toLowerCase (toLowerCase s) = toLowerCase s.
Proof.
  induction s as [|c s IH]; cbn; [reflexivity|].
  rewrite lowerAscii_idempotent, IH. reflexivity.
Qed.

Lemma toLowerCase_digits (s : string) :
  allChars isDigitOrMinus s = true -> toLowerCase s = s.
Proof.
  induction s as [|c s IH]; cbn; [reflexivity|].
  intros H. apply andb_true_iff in H as [Hc Hs].
  rewrite (lowerAscii_fixes_digits c Hc), (IH Hs). reflexivity.
Qed.

Lemma allChars_toLowerCase (s : string) :
  allChars isDigitOrMinus (toLowerCase s) = allChars isDigitOrMinus s.
Proof.
  induction s as [|c s IH]; cbn; [reflexivity|].
  rewrite lowerAscii_digit, IH. reflexivity.
Qed.

Lemma allChars_app (p : ascii -> bool) (a b : string) :
  allChars p (a ++ b) = allChars p a && allChars p b.
Proof.
  induction a as [|c a IH]; cbn; [reflexivity|].
  rewrite IH, andb_assoc. reflexivity.
Qed.

(** A string made of digits and minus signs only contains no query that
    has any other character. *)
Lemma includes_digits_only (s q : string) :
  allChars isDigitOrMinus s = true ->
  allChars isDigitOrMinus q = false ->
  includes s q = false.
Proof.
  intros Hs Hq. destruct (includes s q) eqn:E; [|reflexivity].
  apply includes_spec in E as [a [b ->]].
  rewrite !allChars_app, Hq in Hs. rewrite andb_false_r in Hs.
  discriminate Hs.
Qed.

Lemma matches_empty (r : ProxyRequestLog) : matches r EmptyString = true.
Proof. unfold matches. cbn [toLowerCase]. rewrite includes_empty. reflexivity. Qed.

(** A test that holds on a whole range of integers, by enumeration. *)
Lemma range_check (P : Z -> bool) (lo : Z) (n : nat) :
  forallb P (map (fun k => lo + Z.of_nat k) (seq 0 n)) = true ->
  forall z, lo <= z < lo + Z.of_nat n -> P z = true.
Proof.
  intros H z Hz. rewrite forallb_forall in H. apply H.
  apply in_map_iff. exists (Z.to_nat (z - lo)). split; [lia|].
  apply in_seq. lia.
Qed.

(** ** The live-event handler, continued *)

Lemma deliver_stats (events : list ProxyRequestLog) (m : Monitor) :
  total_requests (stats (deliver events m))
  = total_requests (stats m) + Z.of_nat (List.length events) /\
  success_count (stats (deliver events m))
  = success_count (stats m) + countIf isSuccess events /\
  error_count (stats (deliver events m))
  = error_count (stats m) + countIf (fun r => negb (isSuccess r)) events.
Proof.
  revert m. induction events as [|e events IH]; intro m.
  - unfold countIf. cbn. lia.
  - rewrite deliver_cons. destruct (IH (listener e m)) as [Ht [Hs He]].
    rewrite Ht, Hs, He, !countIf_cons. cbn [listener stats statsUpdater
      total_requests success_count error_count List.length].
    destruct (isSuccess e); cbn [negb]; lia.
Qed.

(** X1.  A run of live events adds to each counter exactly what it saw:
    the total grows by the number of events, the success counter by the
    number of events with 200 <= status < 400, the error counter by the
    number of the others, whatever the counters were before. *)
Theorem deliver_counts_events (events : list ProxyRequestLog) (m : Monitor) :
  let s := stats (deliver events m) in
  total_requests s = total_requests (stats m) + Z.of_nat (List.length events) /\
  success_count s = success_count (stats m) + countIf isSuccess events /\
  error_count s
  = error_count (stats m) + countIf (fun r => negb (isSuccess r)) events.
Proof. cbv zeta. apply deliver_stats. Qed.

(** X2.  A store within capacity stays within capacity: after a run of
    events it holds min(events + previous length, 1000) records. *)
Theorem deliver_store_length (events : list ProxyRequestLog) (m : Monitor) :
  (List.length (logs m) <= capacity)%nat ->
  List.length (logs (deliver events m))
  = Nat.min (List.length events + List.length (logs m)) capacity.
Proof.
  revert m. induction events as [|e events IH]; intros m H.
  - cbn. lia.
  - rewrite deliver_cons, IH; cbn [listener logs]; rewrite logsUpdater_length.
    + cbn [List.length]. lia.
    + lia.
Qed.

Lemma deliver_store_length_witness :
  List.length (logs (deliver (batch 5) busyMonitor)) = 8%nat.
Proof.
  rewrite (deliver_store_length (batch 5) busyMonitor).
  - reflexivity.
  - apply Nat.leb_le. vm_compute. reflexivity.
Defined.

(** X3.  While the store has room a live event only adds its record at the
    front; once the store holds exactly 1000 records every event pushes
    the last (oldest) one out and keeps the others in order. *)
Theorem listener_keeps_or_drops_oldest (r : ProxyRequestLog) (m : Monitor) :
  ((List.length (logs m) < capacity)%nat -> logs (listener r m) = r :: logs m) /\
  (List.length (logs m) = capacity ->
   logs (listener r m) = r :: removelast (logs m) /\
   List.length (logs (listener r m)) = capacity).
Proof.
  split.
  - apply logsUpdater_room.
  - intros H. cbn [listener logs]. split; [apply logsUpdater_full, H|].
    rewrite logsUpdater_length, H. lia.
Qed.

Lemma listener_keeps_or_drops_oldest_witness :
  logs (listener (numbered 7) busyMonitor) = numbered 7 :: logs busyMonitor /\
  logs (listener (numbered 1000) (deliver (batch 1000) initialMonitor))
  = numbered 1000 :: removelast (logs (deliver (batch 1000) initialMonitor)).
Proof.
  split.
  - apply (listener_keeps_or_drops_oldest (numbered 7) busyMonitor).
    apply Nat.ltb_lt. vm_compute. reflexivity.
  - apply (listener_keeps_or_drops_oldest (numbered 1000)
             (deliver (batch 1000) initialMonitor)).
    vm_compute. reflexivity.
Defined.

(** X4.  Live events never change the query or the recording flag, and
    what they store and count does not depend on either: the handler
    records events even while the local recording flag is off. *)
Theorem deliver_ignores_toggle_and_query
  (events : list ProxyRequestLog) (m : Monitor) (q : string) (on : bool) :
  let m' := {| logs := logs m; stats := stats m; filter := q;
               isLoggingEnabled := on |} in
  filter (deliver events m) = filter m /\
  isLoggingEnabled (deliver events m) = isLoggingEnabled m /\
  logs (deliver events m') = logs (deliver events m) /\
  stats (deliver events m') = stats (deliver events m).
Proof.
  cbv zeta. revert m. induction events as [|e events IH]; intro m.
  - repeat split.
  - rewrite !deliver_cons.
    destruct (IH (listener e m)) as [Hf [Ho [Hl Hs]]].
    split; [exact Hf|]. split; [exact Ho|].
    cbn [listener logs stats] in Hl, Hs. split; assumption.
Qed.

Lemma deliver_keeps_filter (events : list ProxyRequestLog) (m : Monitor) :
  filter (deliver events m) = filter m.
Proof.
  revert m. induction events as [|e events IH]; intro m; [reflexivity|].
  rewrite deliver_cons, IH. reflexivity.
Qed.

(** X5.  Under the empty query, as long as nothing has been cut off (at
    most 1000 events since an empty start with zero stats), the counters
    describe the rows of the table: the rows are the events, newest
    first, the total is the number of rows, the success counter the
    number of rows with the green badge and the error counter the number
    of rows with the red one. *)
Theorem counters_match_badges (events : list ProxyRequestLog) (on : bool) :
  (List.length events <= capacity)%nat ->
  let m := deliver events {| logs := []; stats := zeroStats; filter := EmptyString;
                             isLoggingEnabled := on |} in
  filteredLogs m = rev events /\
  total_requests (stats m) = Z.of_nat (List.length (filteredLogs m)) /\
  success_count (stats m) = countIf badgeSuccess (filteredLogs m) /\
  error_count (stats m) = countIf (fun r => negb (badgeSuccess r)) (filteredLogs m).
Proof.
  intros Hlen. cbv zeta.
  set (m0 := {| logs := []; stats := zeroStats; filter := EmptyString;
                isLoggingEnabled := on |}).
  assert (Hlogs : logs (deliver events m0) = rev events).
  { destruct events as [|e events] using rev_ind; [reflexivity|].
    rewrite deliver_logs. cbn [logs m0]. rewrite app_nil_r.
    apply firstn_all2. rewrite length_rev. exact Hlen. }
  assert (Hrows : filteredLogs (deliver events m0) = rev events).
  { unfold filteredLogs. rewrite deliver_keeps_filter, Hlogs. cbn [m0 filter].
    apply forallb_filter_id, forallb_forall. intros r _. apply matches_empty. }
  destruct (deliver_stats events m0) as [Ht [Hs He]].
  rewrite Hrows, Ht, Hs, He, length_rev, !countIf_rev.
  cbn [m0 stats zeroStats total_requests success_count error_count].
  repeat split; lia.
Qed.

Lemma counters_match_badges_witness :
  filteredLogs (deliver (batch 4) initialMonitor) = rev (batch 4) /\
  success_count (stats (deliver (batch 4) initialMonitor))
  = countIf badgeSuccess (filteredLogs (deliver (batch 4) initialMonitor)).
Proof.
  destruct (counters_match_badges (batch 4) false) as [Hl [_ [Hs _]]].
  - apply Nat.leb_le. vm_compute. reflexivity.
  - split; assumption.
Defined.

(** ** The filtered view *)

Lemma matches_narrow (r : ProxyRequestLog) (q q' : string) :
  substringOf q q' -> matches r q' = true -> matches r q = true.
Proof.
  intros Hq. pose proof (substringOf_toLowerCase q q' Hq) as Hl.
  unfold matches. intros H.
  apply orb_true_iff in H as [H | H];
    [apply orb_true_iff in H as [H | H];
     [apply orb_true_iff in H as [H | H]|]|].
  - rewrite (includes_narrow _ _ _ Hl H). reflexivity.
  - rewrite (includes_narrow _ _ _ Hl H), orb_true_r. reflexivity.
  - destruct (model r) as [mo|]; [|discriminate H].
    apply andb_true_iff in H as [Ht H].
    rewrite Ht, (includes_narrow _ _ _ Hl H). cbn. rewrite orb_true_r. reflexivity.
  - rewrite (includes_narrow _ _ _ Hq H). apply orb_true_r.
Qed.

Lemma includes_status_toLowerCase (n : Z) (q : string) :
  includes (toString n) (toLowerCase q) = includes (toString n) q.
Proof.
  destruct (allChars isDigitOrMinus q) eqn:E.
  - rewrite (toLowerCase_digits q E). reflexivity.
  - rewrite !includes_digits_only; try reflexivity; try apply toString_chars.
    + exact E.
    + rewrite allChars_toLowerCase. exact E.
Qed.

Lemma matches_toLowerCase (r : ProxyRequestLog) (q : string) :
  matches r (toLowerCase q) = matches r q.
Proof.
  unfold matches.
  rewrite toLowerCase_idempotent, includes_status_toLowerCase. reflexivity.
Qed.

(** X6.  The empty query is the identity filter: with it the table shows
    the whole store, in order, and the placeholder row appears only when
    the store is empty.  The quick filter labelled "all" is that query. *)
Theorem empty_query_shows_everything (m : Monitor) (v : string) :
  filteredLogs (setFilter EmptyString m) = logs m /\
  (showsEmptyRow (setFilter EmptyString m) = true <-> logs m = []) /\
  (In ("monitor.filters.all", v) quickFilters ->
   filteredLogs (setFilter v m) = logs m).
Proof.
  assert (H : filteredLogs (setFilter EmptyString m) = logs m).
  { unfold filteredLogs. cbn [setFilter filter logs].
    apply forallb_filter_id, forallb_forall. intros r _. apply matches_empty. }
  split; [exact H|]. split.
  - unfold showsEmptyRow. rewrite H, Nat.eqb_eq. split.
    + intros Hl. destruct (logs m); [reflexivity | discriminate Hl].
    + intros ->. reflexivity.
  - intros Hin. cbn in Hin.
    repeat (destruct Hin as [Hin | Hin]; [try discriminate Hin|]);
      try contradiction.
    injection Hin as <-. exact H.
Qed.

Lemma empty_query_shows_everything_witness :
  filteredLogs (setFilter EmptyString busyMonitor) = logs busyMonitor.
Proof.
  apply (empty_query_shows_everything busyMonitor EmptyString).
  left. reflexivity.
Defined.

(** X7.  For ASCII queries and records, extending the query can only
    narrow the view: when [q] occurs inside [q'], every record that
    matches [q'] matches [q], so the rows shown for [q'] are among the
    rows shown for [q], and if [q] shows the placeholder row so does
    [q']. *)
Theorem longer_query_narrows (q q' : string) (r : ProxyRequestLog) (m : Monitor) :
  substringOf q q' ->
  asciiOnly q' = true ->
  (asciiRecord r = true -> matches r q' = true -> matches r q = true) /\
  (forallb asciiRecord (logs m) = true ->
   incl (filteredLogs (setFilter q' m)) (filteredLogs (setFilter q m)) /\
   (showsEmptyRow (setFilter q m) = true ->
    showsEmptyRow (setFilter q' m) = true)).
Proof.
  intros Hq _. split; [intros _; apply matches_narrow, Hq|].
  intros _.
  assert (Hincl : incl (filteredLogs (setFilter q' m)) (filteredLogs (setFilter q m))).
  { intros x. unfold filteredLogs. cbn [setFilter filter logs].
    rewrite !filter_In. intros [Hin Hm].
    split; [exact Hin | apply (matches_narrow x q q' Hq Hm)]. }
  split; [exact Hincl|].
  unfold showsEmptyRow. rewrite !Nat.eqb_eq. intros H0.
  destruct (filteredLogs (setFilter q' m)) as [|x l] eqn:E; [reflexivity|].
  exfalso. assert (Hx : In x (filteredLogs (setFilter q m))).
  { apply Hincl. left. reflexivity. }
  destruct (filteredLogs (setFilter q m)); [contradiction | discriminate H0].
Qed.

Lemma longer_query_narrows_witness :
  matches claudeChat "chat" = true /\
  incl (filteredLogs (setFilter "chat/comp" busyMonitor))
       (filteredLogs (setFilter "chat" busyMonitor)).
Proof.
  destruct (longer_query_narrows "chat" "chat/comp" claudeChat busyMonitor)
    as [Hm Hl].
  - exists EmptyString, "/comp". reflexivity.
  - reflexivity.
  - split.
    + apply Hm; reflexivity.
    + apply Hl. reflexivity.
Defined.

(** X8.  The letter case of the query never matters, not even for the
    status test made on the raw query: a query and its lower-case form
    select the same records. *)
Theorem query_case_irrelevant (q : string) (r : ProxyRequestLog) (m : Monitor) :
  matches r (toLowerCase q) = matches r q /\
  filteredLogs (setFilter (toLowerCase q) m) = filteredLogs (setFilter q m).
Proof.
  split; [apply matches_toLowerCase|].
  unfold filteredLogs. cbn [setFilter filter logs].
  apply filter_ext. intros x. apply matches_toLowerCase.
Qed.

(** X9.  While the store has room, a live event shows up in the filtered
    view exactly when it matches the current query, and then as the first
    row; the other rows are unchanged. *)
Theorem filtered_view_after_event (r : ProxyRequestLog) (m : Monitor) :
  (List.length (logs m) < capacity)%nat ->
  filteredLogs (listener r m)
  = if matches r (filter m) then r :: filteredLogs m else filteredLogs m.
Proof.
  intros H. unfold filteredLogs. cbn [listener filter logs].
  rewrite (logsUpdater_room r (logs m) H). reflexivity.
Qed.

Lemma filtered_view_after_event_witness :
  filteredLogs (listener geminiChat (setFilter "claude" busyMonitor))
  = filteredLogs (setFilter "claude" busyMonitor) /\
  filteredLogs (listener claudeChat (setFilter "claude" busyMonitor))
  = claudeChat :: filteredLogs (setFilter "claude" busyMonitor).
Proof.
  split.
  - apply (filtered_view_after_event geminiChat (setFilter "claude" busyMonitor)).
    apply Nat.ltb_lt. vm_compute. reflexivity.
  - apply (filtered_view_after_event claudeChat (setFilter "claude" busyMonitor)).
    apply Nat.ltb_lt. vm_compute. reflexivity.
Defined.

(** X10.  A query with any character other than a digit or a minus sign
    cannot match through the status: two records with the same url, method
    and model then get the same verdict whatever their status codes. *)
Theorem text_query_ignores_status (q : string) (r r' : ProxyRequestLog) :
  allChars isDigitOrMinus q = false ->
  url r = url r' ->
  method r = method r' ->
  model r = model r' ->
  includes (toString (status r)) q = false /\
  matches r q = matches r' q.
Proof.
  intros Hq Hu Hme Hmo.
  assert (Hs : forall n, includes (toString n) q = false).
  { intro n. apply includes_digits_only; [apply toString_chars | exact Hq]. }
  split; [apply Hs|].
  unfold matches. rewrite Hu, Hme, Hmo, !Hs. reflexivity.
Qed.

Lemma text_query_ignores_status_witness :
  matches (logWithStatus 200) "get" = matches (logWithStatus 500) "get".
Proof.
  apply (text_query_ignores_status "get" (logWithStatus 200) (logWithStatus 500));
    reflexivity.
Defined.

(** X11.  The quick filter labelled "error" is the query "40".  Among the
    three-digit status codes it meets exactly 400-409 and the codes ending
    in 40; so every record with a 400-409 status is shown, while a record
    with another error status such as 500 or 429 is hidden unless its url,
    method or model happens to contain "40". *)
Theorem error_quick_filter_reach (v : string) (r : ProxyRequestLog) :
  In ("monitor.filters.error", v) quickFilters ->
  100 <= status r <= 999 ->
  (includes (toString (status r)) v = true <->
   400 <= status r <= 409 \/ (status r) mod 100 = 40) /\
  (400 <= status r <= 409 -> matches r v = true) /\
  (~ (400 <= status r <= 409 \/ (status r) mod 100 = 40) ->
   includes (toLowerCase (url r)) v = false ->
   includes (toLowerCase (method r)) v = false ->
   model r = None ->
   matches r v = false).
Proof.
  intros Hin Hrange.
  assert (Hv : v = "40").
  { cbn in Hin.
    repeat (destruct Hin as [Hin | Hin];
            [try discriminate Hin; try (injection Hin as <-; reflexivity)|]).
    contradiction. }
  subst v.
  set (P := fun z => Bool.eqb (includes (toString z) "40")
                       (((400 <=? z) && (z <=? 409)) || (z mod 100 =? 40))).
  assert (Hall : forall z, 100 <= z < 100 + Z.of_nat 900 -> P z = true).
  { apply range_check. vm_compute. reflexivity. }
  assert (Hiff : includes (toString (status r)) "40" = true <->
                 400 <= status r <= 409 \/ (status r) mod 100 = 40).
  { assert (HP : P (status r) = true) by (apply Hall; lia).
    unfold P in HP. apply Bool.eqb_prop in HP. rewrite HP.
    rewrite orb_true_iff, andb_true_iff, !Z.leb_le, Z.eqb_eq. tauto. }
  split; [exact Hiff|]. split.
  - intros H. unfold matches.
    replace (includes (toString (status r)) "40") with true
      by (symmetry; apply Hiff; left; exact H).
    apply orb_true_r.
  - intros Hno Hu Hme Hmo. unfold matches.
    change (toLowerCase "40") with "40".
    rewrite Hu, Hme, Hmo. cbn [orb].
    destruct (includes (toString (status r)) "40") eqn:E; [|reflexivity].
    exfalso. apply Hno, Hiff. reflexivity.
Qed.

Lemma error_quick_filter_reach_witness :
  matches (logWithStatus 404) "40" = true /\
  matches (logWithStatus 500) "40" = false.
Proof.
  split.
  - apply (error_quick_filter_reach "40" (logWithStatus 404)).
    + right. left. reflexivity.
    + cbn. lia.
    + cbn. lia.
  - apply (error_quick_filter_reach "40" (logWithStatus 500)).
    + right. left. reflexivity.
    + cbn. lia.
    + cbn. intros [H | H]; [lia | discriminate H].
    + reflexivity.
    + reflexivity.
    + reflexivity.
Defined.

(** ** The recording toggle, continued *)

(** Goes through a membership hypothesis on a list of issued commands,
    leaving the entries that the hypothesis can be. *)
Ltac member H :=
  repeat (destruct H as [H | H]; [try discriminate H|]); try contradiction.

(** X12.  [toggleLogging] never lets a failure escape and never touches
    the logs, the stats or the query.  Either the flag is flipped and
    nothing is written to the console, or the whole state is what it was
    and the failure is reported once under "Failed to toggle logging". *)
Theorem toggleLogging_swallows_failures (b : Backend) (m : Monitor) :
  fst (toggleLogging b (startWorld m)) = Resolved tt /\
  logs (view (toggled b m)) = logs m /\
  stats (view (toggled b m)) = stats m /\
  filter (view (toggled b m)) = filter m /\
  ((isLoggingEnabled (view (toggled b m)) = negb (isLoggingEnabled m) /\
    console (toggled b m) = []) \/
   (view (toggled b m) = m /\
    exists e, console (toggled b m) = [("Failed to toggle logging", e)])).
Proof.
  destruct m as [l s q on]. run. unfold assignEnableLogging.
  destruct (on_load_config b) as [[[[p|]]|]|e]; cbn;
    try (repeat split; right; split; [reflexivity | eexists; reflexivity]).
  destruct (on_save_config b _) as [[]|e]; cbn;
    try (repeat split; right; split; [reflexivity | eexists; reflexivity]).
  destruct (on_set_proxy_monitor_enabled b _) as [[]|e]; cbn;
    try (repeat split; right; split; [reflexivity | eexists; reflexivity]).
  repeat split. left. split; reflexivity.
Qed.

(** X13.  Whatever the backend answers, the commands issued by
    [toggleLogging] are [load_config], then possibly [save_config] with
    the negation of the local flag, then possibly
    [set_proxy_monitor_enabled] with that same value, in this order and
    nothing else.  The write is issued only when the configuration came
    back with a [proxy] section, and the sync only when the write has
    resolved. *)
Theorem toggleLogging_commands (b : Backend) (m : Monitor) :
  let newState := negb (isLoggingEnabled m) in
  let written := {| proxy := Some {| enable_logging := newState |} |} in
  (issued (toggled b m) = [load_config] \/
   issued (toggled b m) = [load_config; save_config written] \/
   issued (toggled b m)
   = [load_config; save_config written; set_proxy_monitor_enabled newState]) /\
  (In (save_config written) (issued (toggled b m)) ->
   exists p, on_load_config b = Resolved (Some {| proxy := Some p |})) /\
  (In (set_proxy_monitor_enabled newState) (issued (toggled b m)) ->
   on_save_config b written = Resolved tt) /\
  (forall c, In (save_config c) (issued (toggled b m)) -> c = written) /\
  (forall x, In (set_proxy_monitor_enabled x) (issued (toggled b m)) ->
             x = newState) /\
  (forall n, ~ In (get_proxy_logs n) (issued (toggled b m))) /\
  ~ In get_proxy_stats (issued (toggled b m)) /\
  ~ In clear_proxy_logs (issued (toggled b m)).
Proof.
  cbv zeta. run. unfold assignEnableLogging.
  destruct (on_load_config b) as [[[[p|]]|]|e] eqn:Hr; cbn;
    [destruct (on_save_config b _) as [[]|e] eqn:Hw; cbn;
     [destruct (on_set_proxy_monitor_enabled b _) as [[]|e] eqn:Hs; cbn|]| | |];
    (split; [auto|]);
    (split; [intros H; member H; eexists; reflexivity|]);
    (split; [intros H; member H; reflexivity|]);
    (split; [intros c H; member H; injection H as <-; reflexivity|]);
    (split; [intros x H; member H; injection H as <-; reflexivity|]);
    (split; [intros n H; member H|]);
    (split; intros H; member H).
Qed.

Lemma toggleLogging_commands_witness :
  on_save_config (healthy [] zeroStats)
    {| proxy := Some {| enable_logging := false |} |} = Resolved tt /\
  (exists p, on_load_config (configReadOnly [] zeroStats)
             = Resolved (Some {| proxy := Some p |})).
Proof.
  split.
  - apply (toggleLogging_commands (healthy [] zeroStats) busyMonitor).
    right. right. left. reflexivity.
  - apply (toggleLogging_commands (configReadOnly [] zeroStats) busyMonitor).
    right. left. reflexivity.
Defined.

(** X14.  When the write goes through and the backend sync then fails, the
    new value has been handed to [save_config] while the local flag keeps
    the old one: the stored configuration and the view disagree, and the
    failure is only logged. *)
Theorem toggle_sync_failure_diverges
  (b : Backend) (m : Monitor) (p : ProxyConfig) (e : string) :
  let newState := negb (isLoggingEnabled m) in
  let written := {| proxy := Some {| enable_logging := newState |} |} in
  on_load_config b = Resolved (Some {| proxy := Some p |}) ->
  on_save_config b written = Resolved tt ->
  on_set_proxy_monitor_enabled b newState = Rejected e ->
  view (toggled b m) = m /\
  issued (toggled b m)
  = [load_config; save_config written; set_proxy_monitor_enabled newState] /\
  console (toggled b m) = [("Failed to toggle logging", e)].
Proof.
  cbv zeta. intros Hr Hw Hs. run. rewrite Hr. cbn. rewrite Hw. cbn.
  rewrite Hs. cbn. destruct m; repeat split.
Qed.

Lemma toggle_sync_failure_diverges_witness :
  view (toggled (syncDown [] zeroStats) busyMonitor) = busyMonitor /\
  issued (toggled (syncDown [] zeroStats) busyMonitor)
  = [load_config;
     save_config {| proxy := Some {| enable_logging := false |} |};
     set_proxy_monitor_enabled false].
Proof.
  destruct (toggle_sync_failure_diverges (syncDown [] zeroStats) busyMonitor
              {| enable_logging := true |} "proxy not running"
              eq_refl eq_refl eq_refl) as [Hv [Hi _]].
  split; assumption.
Defined.

(** X15.  A configuration that is null or has no [proxy] section stops the
    toggle at the assignment: nothing is written or synced, the state is
    unchanged and one failure is logged.  The bootstrap, which tests for
    the section, goes on in the same situation: it leaves the flag alone,
    skips the sync and still fetches the history. *)
Theorem missing_proxy_section (b : Backend) (m : Monitor) :
  on_load_config b = Resolved None \/
  on_load_config b = Resolved (Some {| proxy := None |}) ->
  (view (toggled b m) = m /\
   issued (toggled b m) = [load_config] /\
   exists e, console (toggled b m) = [("Failed to toggle logging", e)]) /\
  (isLoggingEnabled (view (boot b m)) = isLoggingEnabled m /\
   (forall x, ~ In (set_proxy_monitor_enabled x) (issued (boot b m))) /\
   exists tail, issued (boot b m) = load_config :: get_proxy_logs 100 :: tail).
Proof.
  intros [H | H]; (split; [|split; [|split]]); run; rewrite H; cbn.
  - destruct m. split; [reflexivity|]. split; [reflexivity|].
    eexists. reflexivity.
  - branch; reflexivity.
  - intros x. branch; intros K; member K.
  - branch; eexists; reflexivity.
  - destruct m. split; [reflexivity|]. split; [reflexivity|].
    eexists. reflexivity.
  - branch; reflexivity.
  - intros x. branch; intros K; member K.
  - branch; eexists; reflexivity.
Qed.

Lemma missing_proxy_section_witness :
  view (toggled (noProxySection (batch 3) zeroStats) busyMonitor) = busyMonitor /\
  isLoggingEnabled (view (boot (noProxySection (batch 3) zeroStats) busyMonitor))
  = isLoggingEnabled busyMonitor.
Proof.
  destruct (missing_proxy_section (noProxySection (batch 3) zeroStats) busyMonitor)
    as [[Hv _] [Hb _]].
  - right. reflexivity.
  - split; assumption.
Defined.

(** ** Bootstrap, continued *)

(** X16.  Replies of the wrong shape are turned down without a failure:
    a history reply that is not an array leaves the store as it was and
    the stats are still fetched; a null stats reply leaves the counters as
    they were; nothing is written to the console in either case. *)
Theorem loadData_rejects_malformed_replies (b : Backend) (m : Monitor) :
  configStepOk b = true ->
  (on_get_proxy_logs b 100 = Resolved HNotArray ->
   logs (view (boot b m)) = logs m /\
   In get_proxy_stats (issued (boot b m))) /\
  (historyStepOk b = true ->
   on_get_proxy_stats b = Resolved None ->
   stats (view (boot b m)) = stats m /\
   console (boot b m) = []).
Proof.
  intros Hc. split.
  - intros Hh. run. rewrite Hh in *. branch; cbn; auto 6.
  - intros Hh Hs. run. rewrite Hs in *. branch; split; reflexivity.
Qed.

Lemma loadData_rejects_malformed_replies_witness :
  logs (view (boot (malformed [] zeroStats) busyMonitor)) = logs busyMonitor /\
  stats (view (boot (malformed [] zeroStats) busyMonitor)) = stats busyMonitor.
Proof.
  destruct (loadData_rejects_malformed_replies (malformed [] zeroStats) busyMonitor
              eq_refl) as [H1 H2].
  destruct (H1 eq_refl) as [Hl _].
  destruct (H2 eq_refl eq_refl) as [Hs _].
  split; assumption.
Defined.

(** X17.  When every reply is as expected, bootstrap issues its four
    commands in order, logs nothing, and leaves exactly: the fetched
    history as store, the fetched snapshot as counters, the configured
    flag as recording state, and the query untouched.  A first live event
    then counts on top of the snapshot and, if the history is below
    capacity, sits in front of it. *)
Theorem loadData_success
  (b : Backend) (m : Monitor) (p : ProxyConfig)
  (history : list ProxyRequestLog) (snapshot : ProxyStats) (r : ProxyRequestLog) :
  on_load_config b = Resolved (Some {| proxy := Some p |}) ->
  on_set_proxy_monitor_enabled b (enable_logging p) = Resolved tt ->
  on_get_proxy_logs b 100 = Resolved (HArray history) ->
  on_get_proxy_stats b = Resolved (Some snapshot) ->
  view (boot b m)
  = {| logs := history; stats := snapshot; filter := filter m;
       isLoggingEnabled := enable_logging p |} /\
  issued (boot b m)
  = [load_config; set_proxy_monitor_enabled (enable_logging p);
     get_proxy_logs 100; get_proxy_stats] /\
  console (boot b m) = [] /\
  stats (listener r (view (boot b m))) = statsUpdater r snapshot /\
  ((List.length history < capacity)%nat ->
   logs (listener r (view (boot b m))) = r :: history).
Proof.
  intros Hc Hs Hh Hst.
  assert (Hv : view (boot b m)
               = {| logs := history; stats := snapshot; filter := filter m;
                    isLoggingEnabled := enable_logging p |}).
  { run. rewrite Hc. cbn. rewrite Hs. cbn. rewrite Hh. cbn. rewrite Hst.
    reflexivity. }
  split; [exact Hv|]. rewrite Hv.
  split; [run; rewrite Hc; cbn; rewrite Hs; cbn; rewrite Hh; cbn; rewrite Hst;
          reflexivity|].
  split; [run; rewrite Hc; cbn; rewrite Hs; cbn; rewrite Hh; cbn; rewrite Hst;
          reflexivity|].
  split; [reflexivity|].
  intros Hlen. cbn [listener logs]. apply logsUpdater_room, Hlen.
Qed.

Lemma loadData_success_witness :
  let snapshot := {| total_requests := 3; success_count := 2; error_count := 1 |} in
  let w := boot (healthy (batch 3) snapshot) initialMonitor in
  stats (listener (logWithStatus 500) (view w))
  = {| total_requests := 4; success_count := 2; error_count := 2 |} /\
  logs (listener (logWithStatus 500) (view w)) = logWithStatus 500 :: batch 3.
Proof.
  cbv zeta.
  destruct (loadData_success
              (healthy (batch 3)
                 {| total_requests := 3; success_count := 2; error_count := 1 |})
              initialMonitor {| enable_logging := true |} (batch 3)
              {| total_requests := 3; success_count := 2; error_count := 1 |}
              (logWithStatus 500) eq_refl eq_refl eq_refl eq_refl)
    as [_ [_ [_ [Hs Hl]]]].
  split; [exact Hs|]. apply Hl. apply Nat.ltb_lt. vm_compute. reflexivity.
Defined.

(** X18.  Bootstrap never writes the configuration and never clears the
    history: it starts with [load_config] and never issues [save_config]
    or [clear_proxy_logs].  The one command by which it changes anything
    outside is [set_proxy_monitor_enabled], issued only when the
    configuration came back with a [proxy] section and then with exactly
    the value read from it.  It never changes the query and writes at
    most one line to the console. *)
Theorem loadData_writes_only_backend_flag (b : Backend) (m : Monitor) :
  hd_error (issued (boot b m)) = Some load_config /\
  (forall c, ~ In (save_config c) (issued (boot b m))) /\
  ~ In clear_proxy_logs (issued (boot b m)) /\
  (forall x, In (set_proxy_monitor_enabled x) (issued (boot b m)) ->
             on_load_config b
             = Resolved (Some {| proxy := Some {| enable_logging := x |} |})) /\
  filter (view (boot b m)) = filter m /\
  (List.length (console (boot b m)) <= 1)%nat.
Proof.
  run. split; [branch; reflexivity|].
  split; [intros c; branch; intros H; member H|].
  split; [branch; intros H; member H|].
  split.
  - intros x.
    destruct (on_load_config b) as [[[[[flag]|]]|]|e]; cbn;
      branch; intros H; member H; injection H as <-; reflexivity.
  - split; [branch; reflexivity|]. branch; lia.
Qed.

Lemma loadData_writes_only_backend_flag_witness :
  on_load_config (syncDown (batch 3) zeroStats)
  = Resolved (Some {| proxy := Some {| enable_logging := true |} |}).
Proof.
  apply (loadData_writes_only_backend_flag (syncDown (batch 3) zeroStats)
           busyMonitor).
  right. left. reflexivity.
Defined.

(** X19.  Running the bootstrap again against the same replies changes
    nothing: the state after a second run is the state after the first. *)
Theorem loadData_idempotent (b : Backend) (m : Monitor) :
  view (boot b (view (boot b m))) = view (boot b m) /\
  issued (boot b (view (boot b m))) = issued (boot b m) /\
  console (boot b (view (boot b m))) = console (boot b m).
Proof.
  destruct m as [l s q on]. run. branch; repeat split.
Qed.

(** ** Clearing, continued *)

(** X20.  The only failure that escapes [clearLogs] is a failure of the
    confirmation dialog itself, which sits outside the [try]; in that
    case nothing has been issued, logged or changed. *)
Theorem clearLogs_escape (b : Backend) (m : Monitor) (e : string) :
  (fst (clearLogs b (startWorld m)) = Rejected e <-> on_ask b = Rejected e) /\
  (on_ask b = Rejected e -> cleared b m = startWorld m).
Proof.
  run. split.
  - branch; split; intros H; try discriminate H; injection H as ->; reflexivity.
  - intros H. rewrite H. reflexivity.
Qed.

Lemma clearLogs_escape_witness :
  cleared (dialogDown [] zeroStats) busyMonitor = startWorld busyMonitor.
Proof.
  apply (clearLogs_escape (dialogDown [] zeroStats) busyMonitor "dialog unavailable").
  reflexivity.
Defined.

(** X21.  [clearLogs] is all or nothing: afterwards either the state is
    what it was, or the store is empty and all three counters are zero
    together; the query and the recording flag are never touched, and the
    only command it can issue is a single [clear_proxy_logs]. *)
Theorem clearLogs_all_or_nothing (b : Backend) (m : Monitor) :
  (view (cleared b m) = m \/
   view (cleared b m)
   = {| logs := []; stats := zeroStats; filter := filter m;
        isLoggingEnabled := isLoggingEnabled m |}) /\
  filter (view (cleared b m)) = filter m /\
  isLoggingEnabled (view (cleared b m)) = isLoggingEnabled m /\
  (issued (cleared b m) = [] \/ issued (cleared b m) = [clear_proxy_logs]).
Proof.
  destruct m as [l s q on]. run. branch; repeat split; auto.
Qed.

(** X22.  A successful clear restores the balance of the counters even if
    a skewed snapshot had broken it: after any run of live events that
    follows, the total is the number of those events and equals successes
    plus errors; and right after the clear the table is empty under every
    query. *)
Theorem clear_restores_balance
  (b : Backend) (m : Monitor) (events : list ProxyRequestLog) :
  on_ask b = Resolved true ->
  on_clear_proxy_logs b = Resolved tt ->
  let after := deliver events (view (cleared b m)) in
  total_requests (stats after) = Z.of_nat (List.length events) /\
  total_requests (stats after)
  = success_count (stats after) + error_count (stats after) /\
  filteredLogs (view (cleared b m)) = [] /\
  showsEmptyRow (view (cleared b m)) = true.
Proof.
  intros Ha Hc. cbv zeta.
  assert (Hv : view (cleared b m)
               = {| logs := []; stats := zeroStats; filter := filter m;
                    isLoggingEnabled := isLoggingEnabled m |}).
  { run. rewrite Ha. cbn. rewrite Hc. reflexivity. }
  rewrite Hv.
  destruct (deliver_stats events
              {| logs := []; stats := zeroStats; filter := filter m;
                 isLoggingEnabled := isLoggingEnabled m |}) as [Ht _].
  pose proof (deliver_imbalance events
                {| logs := []; stats := zeroStats; filter := filter m;
                   isLoggingEnabled := isLoggingEnabled m |}) as Hi.
  unfold imbalance in Hi. cbn in Ht, Hi.
  repeat split; try reflexivity; lia.
Qed.

Lemma clear_restores_balance_witness :
  total_requests (stats (deliver (batch 2)
                           (view (cleared (healthy [] zeroStats) skewedMonitor))))
  = 2.
Proof.
  apply (clear_restores_balance (healthy [] zeroStats) skewedMonitor (batch 2));
    reflexivity.
Defined.

(** ** The subscription life cycle *)

Lemma lifecycle_subscribed (schedule : list Signal) (calls : nat) :
  fold_left signal schedule {| unlistenFn := true; unlistenCalls := calls |}
  = {| unlistenFn := true;
       unlistenCalls :=
         calls + List.length
                   (List.filter (fun s => match s with
                                          | Cleanup => true
                                          | ListenResolved => false
                                          end) schedule) |}.
Proof.
  revert calls. induction schedule as [|s schedule IH]; intro calls.
  - cbn. f_equal. lia.
  - destruct s; cbn [fold_left signal unlistenFn unlistenCalls List.filter].
    + apply IH.
    + rewrite IH. cbn [List.length]. f_equal. lia.
Qed.

(** X23.  The clean-up of the effect calls the unlisten function only if
    the promise of [listen] has resolved by then: over any schedule, the
    calls made are the clean-ups that come after the resolution.  A
    clean-up that runs first makes no call, and nothing cancels the
    subscription that is established afterwards. *)
Theorem cleanup_calls_unlisten_only_after_listen (schedule : list Signal) :
  unlistenCalls (lifecycle schedule) = cleanupsAfterListen schedule /\
  (unlistenFn (lifecycle schedule) = true <-> In ListenResolved schedule) /\
  unlistenCalls (lifecycle (Cleanup :: ListenResolved :: [])) = 0%nat /\
  unlistenCalls (lifecycle (ListenResolved :: Cleanup :: [])) = 1%nat.
Proof.
  unfold lifecycle. split; [|split; [|split; reflexivity]].
  - induction schedule as [|s schedule IH]; [reflexivity|].
    destruct s; cbn [fold_left signal mounted unlistenFn cleanupsAfterListen].
    + rewrite lifecycle_subscribed. reflexivity.
    + exact IH.
  - induction schedule as [|s schedule IH].
    + cbn. split; [discriminate | contradiction].
    + destruct s; cbn [fold_left signal mounted unlistenFn].
      * rewrite lifecycle_subscribed. cbn. split; auto.
      * rewrite IH. cbn. split; [auto | intros [H | H]; [discriminate H | exact H]].
Qed.
